(** * cz_conventional_commmits_jira_optional: the commit-message composer

    A shallow embedding of [cz_conventional_commmits_jira_optional.py]: the
    input filters attached to the prompts, the [message] template, the
    [example] text and the [schema_pattern] grammar, together with the
    properties of them that the design document states.

    Python's [str] is embedded as [string]: a sequence of characters, each
    a code point below 256.  Character classes ([str.isspace], and the
    classes [\s], [\d], [\w] of the [re] module) are the Unicode ones,
    restricted to that range. *)

From Stdlib Require Import Bool Arith NArith List Ascii String Lia.
Import ListNotations.
Local Open Scope list_scope.
Local Open Scope string_scope.

(* ------------------------------------------------------------------ *)
(** ** Python's [str] methods used by the module *)
(* ------------------------------------------------------------------ *)

Module PyStr.

(** Truth value of a string: [if x] holds for the non-empty ones. *)
Definition truthy (s : string) : bool :=
  match s with
  | EmptyString => false
  | String _ _ => true
  end.

Definition code (c : ascii) : N := N_of_ascii c.

Definition between (lo hi : N) (c : ascii) : bool :=
  (lo <=? code c)%N && (code c <=? hi)%N.

(** [str.isspace] on one character: TAB..CR, FS..US, SPACE, NEL, NBSP. *)
Definition isspace (c : ascii) : bool :=
  between 9 13 c || between 28 32 c
  || (code c =? 133)%N || (code c =? 160)%N.

(** [Py_UNICODE_ISDECIMAL]: category Nd. *)
Definition isdecimal (c : ascii) : bool := between 48 57 c.

(** [Py_UNICODE_ISALNUM]: alphabetic, decimal, digit or numeric. *)
Definition isalnum (c : ascii) : bool :=
  between 48 57 c || between 65 90 c || between 97 122 c
  || (code c =? 170)%N || (code c =? 181)%N || (code c =? 186)%N
  || between 178 179 c || (code c =? 185)%N || between 188 190 c
  || between 192 214 c || between 216 246 c || between 248 255 c.

(** Membership of a character in the argument of [str.strip(chars)]. *)
Fixpoint mem (c : ascii) (chars : string) : bool :=
  match chars with
  | EmptyString => false
  | String d rest => Ascii.eqb c d || mem c rest
  end.

Fixpoint lstrip_by (p : ascii -> bool) (s : string) : string :=
  match s with
  | EmptyString => EmptyString
  | String c rest => if p c then lstrip_by p rest else s
  end.

Fixpoint rstrip_by (p : ascii -> bool) (s : string) : string :=
  match s with
  | EmptyString => EmptyString
  | String c rest =>
      match rstrip_by p rest with
      | EmptyString => if p c then EmptyString else String c EmptyString
      | r => String c r
      end
  end.

(** [do_strip] scans from the left, then from the right. *)
Definition strip_by (p : ascii -> bool) (s : string) : string :=
  rstrip_by p (lstrip_by p s).

(** [s.strip()] *)
Definition strip (s : string) : string := strip_by isspace s.

(** [s.strip(chars)] *)
Definition strip_chars (chars s : string) : string :=
  strip_by (fun c => mem c chars) s.

(** [s.rstrip(chars)] *)
Definition rstrip_chars (chars s : string) : string :=
  rstrip_by (fun c => mem c chars) s.

Definition flush (cur : string) : list string :=
  if truthy cur then [cur] else [].

(** [s.split()]: the maximal runs of non-whitespace characters, in
    order.  [cur] is the run being read. *)
Fixpoint split_from (cur s : string) : list string :=
  match s with
  | EmptyString => flush cur
  | String c rest =>
      if isspace c then flush cur ++ split_from EmptyString rest
      else split_from (cur ++ String c EmptyString) rest
  end.

Definition split (s : string) : list string := split_from EmptyString s.

(** [sep.join(parts)] *)
Fixpoint join (sep : string) (parts : list string) : string :=
  match parts with
  | [] => EmptyString
  | [p] => p
  | p :: rest => p ++ sep ++ join sep rest
  end.

(** [s.replace(old, new)] for one-character [old] and [new]. *)
Fixpoint replace (old new : ascii) (s : string) : string :=
  match s with
  | EmptyString => EmptyString
  | String c rest =>
      String (if Ascii.eqb c old then new else c) (replace old new rest)
  end.

(** [s.startswith(p)] and [s.endswith(p)] *)
Fixpoint startswith (s p : string) {struct p} : bool :=
  match p, s with
  | EmptyString, _ => true
  | String a p', String b s' => Ascii.eqb a b && startswith s' p'
  | String _ _, EmptyString => false
  end.

Fixpoint endswith (s p : string) : bool :=
  String.eqb s p
  || match s with
     | EmptyString => false
     | String _ rest => endswith rest p
     end.

Fixpoint all_chars (p : ascii -> bool) (s : string) : bool :=
  match s with
  | EmptyString => true
  | String c rest => p c && all_chars p rest
  end.

(** [s.isspace()], except that it also holds of the empty string. *)
Definition all_space (s : string) : bool := all_chars isspace s.

Definition no_space (s : string) : bool :=
  all_chars (fun c => negb (isspace c)) s.

(** What [split] returns: non-empty runs without whitespace. *)
Definition token (s : string) : bool := truthy s && no_space s.

End PyStr.

(* ------------------------------------------------------------------ *)
(** ** The part of Python's [re] module the patterns of the module use *)
(* ------------------------------------------------------------------ *)

Module Re.

Inductive category := Digit | Space | Word.

Inductive set_item :=
| SChar (c : ascii)
| SRange (lo hi : ascii)
| SClass (neg : bool) (k : category).

Inductive regex :=
| Empty
| Lit (c : ascii)
| Any
| Class (neg : bool) (k : category)
| CharSet (neg : bool) (items : list set_item)
| Bol
| Eol
| Seq (r1 r2 : regex)
| Alt (r1 r2 : regex)
| Repeat (lo : nat) (hi : option nat) (r : regex)
| Group (capture : bool) (r : regex).

Record pattern := { dotall : bool; body : regex }.

Definition LF : ascii := ascii_of_nat 10.
Definition CR : ascii := ascii_of_nat 13.

(** *** Matching *)

Definition in_category (k : category) (c : ascii) : bool :=
  match k with
  | Digit => PyStr.isdecimal c
  | Space => PyStr.isspace c
  | Word => PyStr.isalnum c || Ascii.eqb c "_"
  end.

Definition item_has (c : ascii) (it : set_item) : bool :=
  match it with
  | SChar d => Ascii.eqb c d
  | SRange lo hi => PyStr.between (PyStr.code lo) (PyStr.code hi) c
  | SClass neg k => xorb neg (in_category k c)
  end.

(** A continuation receives the position reached and the input left. *)
Definition cont := nat -> string -> bool.

Definition one (p : ascii -> bool) (k : cont) : cont :=
  fun pos s =>
    match s with
    | EmptyString => false
    | String c rest => if p c then k (S pos) rest else false
    end.

(** [n] iterations of [step], each free to match the empty string. *)
Fixpoint times (step : cont -> cont) (n : nat) (k : cont) : cont :=
  match n with
  | O => k
  | S n' => step (times step n' k)
  end.

(** At most [n] further iterations.  An iteration that consumes nothing
    leaves the same input as no iteration at all, so only iterations that
    shorten the input are followed. *)
Fixpoint upto (step : cont -> cont) (n : nat) (k : cont) : cont :=
  fun pos s =>
    match n with
    | O => k pos s
    | S n' =>
        if step (fun pos' s' =>
                   if (String.length s' <? String.length s)%nat
                   then upto step n' k pos' s'
                   else false) pos s
        then true
        else k pos s
    end.

(** Unbounded repetition: no more iterations than characters left. *)
Definition star (step : cont -> cont) (k : cont) : cont :=
  fun pos s => upto step (String.length s) k pos s.

Fixpoint run (fl : bool) (r : regex) (k : cont) {struct r} : cont :=
  match r with
  | Empty => k
  | Lit c => one (Ascii.eqb c) k
  | Any => one (fun c => fl || negb (Ascii.eqb c LF)) k
  | Class neg cat => one (fun c => xorb neg (in_category cat c)) k
  | CharSet neg items =>
      one (fun c => xorb neg (existsb (item_has c) items)) k
  | Bol => fun pos s => if (pos =? 0)%nat then k pos s else false
  | Eol =>
      fun pos s =>
        if String.eqb s EmptyString || String.eqb s (String LF EmptyString)
        then k pos s
        else false
  | Seq r1 r2 => run fl r1 (run fl r2 k)
  | Alt r1 r2 =>
      fun pos s => if run fl r1 k pos s then true else run fl r2 k pos s
  | Repeat lo hi r' =>
      times (run fl r') lo
        (match hi with
         | None => star (run fl r') k
         | Some h => upto (run fl r') (h - lo) k
         end)
  | Group _ r' => run fl r' k
  end.

(** [re.match(p, s) is not None] for a compiled pattern: a match that
    starts at position 0 and may end anywhere. *)
Definition matches (p : pattern) (s : string) : bool :=
  run (dotall p) (body p) (fun _ _ => true) 0 s.

(** [re.fullmatch(p, s) is not None]: the match takes the whole input. *)
Definition fullmatch (p : pattern) (s : string) : bool :=
  run (dotall p) (body p) (fun _ rest => String.eqb rest EmptyString) 0 s.

(** *** What a match is

    [Match fl r pos a rest]: the expression [r] matches the text [a] that
    starts at position [pos] and is followed by [rest]; [fl] is the flag of
    [(?s)].  [Iter fl r n pos a rest]: [a] is [n] matches of [r] in a row. *)

Inductive Match (fl : bool) : regex -> nat -> string -> string -> Prop :=
| MEmpty pos rest : Match fl Empty pos EmptyString rest
| MLit c pos rest : Match fl (Lit c) pos (String c EmptyString) rest
| MAny c pos rest :
    fl || negb (Ascii.eqb c LF) = true ->
    Match fl Any pos (String c EmptyString) rest
| MClass neg cat c pos rest :
    xorb neg (in_category cat c) = true ->
    Match fl (Class neg cat) pos (String c EmptyString) rest
| MCharSet neg items c pos rest :
    xorb neg (existsb (item_has c) items) = true ->
    Match fl (CharSet neg items) pos (String c EmptyString) rest
| MBol rest : Match fl Bol 0 EmptyString rest
| MEol pos rest :
    rest = EmptyString \/ rest = String LF EmptyString ->
    Match fl Eol pos EmptyString rest
| MSeq r1 r2 pos a b rest :
    Match fl r1 pos a (b ++ rest) ->
    Match fl r2 (pos + String.length a) b rest ->
    Match fl (Seq r1 r2) pos (a ++ b) rest
| MAltL r1 r2 pos a rest :
    Match fl r1 pos a rest -> Match fl (Alt r1 r2) pos a rest
| MAltR r1 r2 pos a rest :
    Match fl r2 pos a rest -> Match fl (Alt r1 r2) pos a rest
| MRepeat lo hi r n pos a rest :
    lo <= n -> (forall h, hi = Some h -> n <= h) ->
    Iter fl r n pos a rest ->
    Match fl (Repeat lo hi r) pos a rest
| MGroup capture r pos a rest :
    Match fl r pos a rest -> Match fl (Group capture r) pos a rest
with Iter (fl : bool) : regex -> nat -> nat -> string -> string -> Prop :=
| IterO r pos rest : Iter fl r 0 pos EmptyString rest
| IterS r n pos a b rest :
    Match fl r pos a (b ++ rest) ->
    Iter fl r n (pos + String.length a) b rest ->
    Iter fl r (S n) pos (a ++ b) rest.

(** The bounds of every repetition are in order, as [re.compile] requires. *)
Fixpoint wf (r : regex) : bool :=
  match r with
  | Seq r1 r2 | Alt r1 r2 => wf r1 && wf r2
  | Repeat lo (Some h) r' => (lo <=? h)%nat && wf r'
  | Repeat _ None r' | Group _ r' => wf r'
  | _ => true
  end.

(** What it is for [step] to try every match of [r] and hand what follows
    to the continuation. *)
Definition explores (fl : bool) (r : regex) (step : cont -> cont) : Prop :=
  forall (k : cont) pos s,
    step k pos s = true
    <-> exists a rest,
        s = a ++ rest /\ Match fl r pos a rest
        /\ k (pos + String.length a) rest = true.

Definition explores_iter (fl : bool) (r : regex) (n : nat)
  (step : cont -> cont) : Prop :=
  forall (k : cont) pos s,
    step k pos s = true
    <-> exists a rest,
        s = a ++ rest /\ Iter fl r n pos a rest
        /\ k (pos + String.length a) rest = true.

(** *** Compiling a pattern string

    The syntax covered: literals, [.], [^], [$], backslash escapes,
    bracketed sets with ranges and negation, groups [( )] and [(?: )],
    alternation, the greedy quantifiers [*], [+], [?], [{m}], [{m,}],
    [{m,n}], and a leading [(?s)].  Anything else does not compile. *)

Definition is_digit (c : ascii) : bool := PyStr.between 48 57 c.

Definition is_letter (c : ascii) : bool :=
  PyStr.between 65 90 c || PyStr.between 97 122 c.

Definition digit_value (c : ascii) : nat := N.to_nat (PyStr.code c) - 48.

Fixpoint read_nat_from (acc : nat) (s : string) : nat * string :=
  match s with
  | EmptyString => (acc, s)
  | String c rest =>
      if is_digit c then read_nat_from (10 * acc + digit_value c) rest
      else (acc, s)
  end.

Definition read_nat (s : string) : option (nat * string) :=
  match s with
  | EmptyString => None
  | String c _ => if is_digit c then Some (read_nat_from 0 s) else None
  end.

Definition among (c : ascii) (lit : string) : bool := PyStr.mem c lit.

Inductive escaped :=
| EClass (neg : bool) (k : category)
| EChar (c : ascii).

(** The meaning of a backslash followed by [c]. *)
Definition escape (c : ascii) : option escaped :=
  if among c "d" then Some (EClass false Digit)
  else if among c "D" then Some (EClass true Digit)
  else if among c "s" then Some (EClass false Space)
  else if among c "S" then Some (EClass true Space)
  else if among c "w" then Some (EClass false Word)
  else if among c "W" then Some (EClass true Word)
  else if among c "n" then Some (EChar LF)
  else if among c "r" then Some (EChar CR)
  else if among c "t" then Some (EChar (ascii_of_nat 9))
  else if among c "v" then Some (EChar (ascii_of_nat 11))
  else if among c "f" then Some (EChar (ascii_of_nat 12))
  else if is_letter c || is_digit c then None
  else Some (EChar c).

Inductive quant :=
| QNone
| QBad
| QRepeat (lo : nat) (hi : option nat) (rest : string).

Definition braces (s : string) : quant :=
  match read_nat s with
  | Some (lo, String c rest) =>
      if among c "}" then QRepeat lo (Some lo) rest
      else if among c "," then
        match rest with
        | String d rest' =>
            if among d "}" then QRepeat lo None rest'
            else
              match read_nat rest with
              | Some (hi, String e rest'') =>
                  if among e "}" && (lo <=? hi)%nat
                  then QRepeat lo (Some hi) rest''
                  else QBad
              | _ => QBad
              end
        | EmptyString => QBad
        end
      else QBad
  | _ => QBad
  end.

Definition quantifier (s : string) : quant :=
  match s with
  | EmptyString => QNone
  | String c rest =>
      if among c "*" then QRepeat 0 None rest
      else if among c "+" then QRepeat 1 None rest
      else if among c "?" then QRepeat 0 (Some 1) rest
      else if among c "{" then braces rest
      else QNone
  end.

(** A quantifier may not be followed by another one (lazy and possessive
    forms are outside the syntax covered). *)
Definition quantified (s : string) : bool :=
  match s with
  | EmptyString => false
  | String c _ => among c "*+?{"
  end.

Definition set_char (lo : ascii) (s : string)
  : option (set_item * string) :=
  match s with
  | String dash (String hi rest) =>
      if among dash "-" && negb (among hi "]") then
        if among hi "\" || (PyStr.code hi <? PyStr.code lo)%N then None
        else Some (SRange lo hi, rest)
      else Some (SChar lo, s)
  | _ => Some (SChar lo, s)
  end.

Definition set_item_at (s : string) : option (set_item * string) :=
  match s with
  | EmptyString => None
  | String c rest =>
      if among c "\" then
        match rest with
        | EmptyString => None
        | String e rest' =>
            match escape e with
            | Some (EClass neg k) => Some (SClass neg k, rest')
            | Some (EChar d) => set_char d rest'
            | None => None
            end
        end
      else set_char c rest
  end.

(** The items of a set, up to and including the closing bracket; a
    bracket in first place is an item. *)
Fixpoint set_items (fuel : nat) (first : bool) (s : string)
  : option (list set_item * string) :=
  match fuel with
  | O => None
  | S fuel' =>
      match s with
      | EmptyString => None
      | String c rest =>
          if among c "]" && negb first then Some ([], rest)
          else
            match set_item_at s with
            | Some (it, rest') =>
                match set_items fuel' false rest' with
                | Some (its, rest'') => Some (it :: its, rest'')
                | None => None
                end
            | None => None
            end
      end
  end.

Definition bracket (s : string) : option (regex * string) :=
  let '(neg, s') :=
    match s with
    | String c rest => if among c "^" then (true, rest) else (false, s)
    | EmptyString => (false, s)
    end in
  match set_items (S (String.length s')) true s' with
  | Some (its, rest) => Some (CharSet neg its, rest)
  | None => None
  end.

Inductive level := LAlt | LSeq | LPiece | LAtom.

Fixpoint parse (fuel : nat) (lv : level) (s : string)
  : option (regex * string) :=
  match fuel with
  | O => None
  | S fuel' =>
      match lv with
      | LAlt =>
          match parse fuel' LSeq s with
          | Some (r1, String c rest) =>
              if among c "|" then
                match parse fuel' LAlt rest with
                | Some (r2, rest') => Some (Alt r1 r2, rest')
                | None => None
                end
              else Some (r1, String c rest)
          | other => other
          end
      | LSeq =>
          match s with
          | EmptyString => Some (Empty, s)
          | String c _ =>
              if among c "|)" then Some (Empty, s)
              else
                match parse fuel' LPiece s with
                | Some (r1, rest) =>
                    match parse fuel' LSeq rest with
                    | Some (Empty, rest') => Some (r1, rest')
                    | Some (r2, rest') => Some (Seq r1 r2, rest')
                    | None => None
                    end
                | None => None
                end
          end
      | LPiece =>
          match parse fuel' LAtom s with
          | Some (r, rest) =>
              match quantifier rest with
              | QNone => Some (r, rest)
              | QBad => None
              | QRepeat lo hi rest' =>
                  if quantified rest' then None
                  else Some (Repeat lo hi r, rest')
              end
          | None => None
          end
      | LAtom =>
          match s with
          | EmptyString => None
          | String c rest =>
              if among c "(" then
                let group := fun (capture : bool) (inner : string) =>
                  match parse fuel' LAlt inner with
                  | Some (r, String e rest') =>
                      if among e ")" then Some (Group capture r, rest')
                      else None
                  | _ => None
                  end in
                match rest with
                | String q (String d rest') =>
                    if among q "?" then
                      if among d ":" then group false rest' else None
                    else group true rest
                | _ => group true rest
                end
              else if among c "[" then bracket rest
              else if among c "\" then
                match rest with
                | EmptyString => None
                | String e rest' =>
                    match escape e with
                    | Some (EClass neg k) => Some (Class neg k, rest')
                    | Some (EChar d) => Some (Lit d, rest')
                    | None => None
                    end
                end
              else if among c "." then Some (Any, rest)
              else if among c "^" then Some (Bol, rest)
              else if among c "$" then Some (Eol, rest)
              else if among c "*+?{)|" then None
              else Some (Lit c, rest)
          end
      end
  end.

Fixpoint strip_prefix (p s : string) : option string :=
  match p, s with
  | EmptyString, _ => Some s
  | String a p', String b s' =>
      if Ascii.eqb a b then strip_prefix p' s' else None
  | String _ _, EmptyString => None
  end.

(** [re.compile] *)
Definition compile (pat : string) : option pattern :=
  let '(fl, rest) :=
    match strip_prefix "(?s)" pat with
    | Some rest => (true, rest)
    | None => (false, pat)
    end in
  match parse (4 * String.length rest + 4) LAlt rest with
  | Some (r, EmptyString) => Some {| dotall := fl; body := r |}
  | _ => None
  end.

(** [re.match(pat, s)], as a truth value. *)
Definition re_match (pat s : string) : bool :=
  match compile pat with
  | Some p => matches p s
  | None => false
  end.

End Re.

(* ------------------------------------------------------------------ *)
(** ** What the module imports from the host package *)
(* ------------------------------------------------------------------ *)

Module exceptions.

(** [commitizen.cz.exceptions]: the base class and the one class the
    module raises, each carrying its message. *)
Inductive exception :=
| CzException (msg : string)
| AnswerRequiredError (msg : string).

(** [type(e).__name__] *)
Definition class_name (e : exception) : string :=
  match e with
  | CzException _ => "CzException"
  | AnswerRequiredError _ => "AnswerRequiredError"
  end.

(** [str(e)] *)
Definition text (e : exception) : string :=
  match e with
  | CzException msg => msg
  | AnswerRequiredError msg => msg
  end.

End exceptions.

(** The outcome of a call that may raise. *)
Inductive result (A : Type) :=
| Return (a : A)
| Raise (e : exceptions.exception).

Arguments Return {A} a.
Arguments Raise {A} e.

(** Modelled from the spec: [required_validator] is imported from the host
    package ([commitizen.cz.utils]) and is not part of the sources; the
    design document has it fail with the required-field error, carrying the
    given message, when the answer is empty, and hand the answer back
    otherwise. *)
Definition required_validator (answer msg : string) : result string :=
  if negb (PyStr.truthy answer)
  then Raise (exceptions.AnswerRequiredError msg)
  else Return answer.

(** [Settings], the keys the module reads; a key may be absent. *)
Record Settings := {
  breaking_change_exclamation_in_title : option bool;
  encoding : option string
}.

Record BaseConfig := { settings : Settings }.

(** [d.get(key, default)] *)
Definition get {A : Type} (entry : option A) (default : A) : A :=
  match entry with
  | Some v => v
  | None => default
  end.

(* ------------------------------------------------------------------ *)
(** ** The module *)
(* ------------------------------------------------------------------ *)

(** The line break, and the blank line that separates sections. *)
Definition nl : string := String Re.LF EmptyString.
Definition blank : string := nl ++ nl.

Definition _parse_scope (text : string) : string :=
  PyStr.join "-" (PyStr.split (PyStr.strip text)).

Definition _parse_subject (text : string) : result string :=
  required_validator (PyStr.strip (PyStr.strip_chars "." text))
    "Subject is required.".

Definition jira_issue_key : string := "^[A-Z]{2,}-\d+$".

Definition _parse_jira_issues (text : string) : result string :=
  let issues := PyStr.join " " (PyStr.split (PyStr.strip text)) in
  if negb (forallb (Re.re_match jira_issue_key) (PyStr.split issues))
  then Raise (exceptions.AnswerRequiredError
                "Enter valid Jira issue keys (e.g., JRA-123).")
  else Return issues.

Record ConventionalCommitsAnswers := {
  jira_issues : string;
  jira_workflow : string;
  jira_time : string;
  jira_comment : string;
  prefix : string;
  scope : string;
  subject : string;
  body : string;
  footer : string;
  is_breaking_change : bool
}.

Record ConventionalCommitsJiraOptionalCz := { config : BaseConfig }.

(** The [filter] entries of [questions] that are written in place. *)
Definition jira_workflow_filter (x : string) : string :=
  if PyStr.truthy x
  then "#" ++ PyStr.replace " " "-" (PyStr.strip x)
  else "".

Definition jira_time_filter (x : string) : string :=
  if PyStr.truthy x then "#time " ++ x else "".

Definition jira_comment_filter (x : string) : string :=
  if PyStr.truthy x then "#comment " ++ x else "".

(** A prompt: its kind, the field it fills and its filter.  The display
    texts and the choices of the [prefix] prompt play no part below. *)
Record CzQuestion := {
  type : string;
  name : string;
  filter : option (string -> result string)
}.

Definition pure (f : string -> string) : option (string -> result string) :=
  Some (fun x => Return (f x)).

Section Questions.

(** The [body] prompt filters through [multiple_line_breaker], which the
    host package ([commitizen.cz.utils]) provides. *)
Variable multiple_line_breaker : string -> string.

Definition questions : list CzQuestion :=
  [ {| type := "input"; name := "jira_issues";
       filter := Some _parse_jira_issues |};
    {| type := "input"; name := "jira_workflow";
       filter := pure jira_workflow_filter |};
    {| type := "input"; name := "jira_time";
       filter := pure jira_time_filter |};
    {| type := "input"; name := "jira_comment";
       filter := pure jira_comment_filter |};
    {| type := "list"; name := "prefix"; filter := None |};
    {| type := "input"; name := "scope"; filter := pure _parse_scope |};
    {| type := "input"; name := "subject";
       filter := Some _parse_subject |};
    {| type := "input"; name := "body";
       filter := pure multiple_line_breaker |};
    {| type := "confirm"; name := "is_breaking_change"; filter := None |};
    {| type := "input"; name := "footer"; filter := None |} ].

(** The filter attached to the prompt of a field. *)
Definition filter_of (field : string)
  : option (string -> result string) :=
  match List.find (fun q => String.eqb (name q) field) questions with
  | Some q => filter q
  | None => None
  end.

End Questions.

Section Message.

Variable self : ConventionalCommitsJiraOptionalCz.
Variable answers : ConventionalCommitsAnswers.

(** The local names of [message] are kept; [title_head] is [title] as it
    stands before the colon is appended, [effective_footer] is [footer]
    after the breaking-change prefix. *)
Definition formatted_scope : string :=
  if PyStr.truthy (scope answers) then "(" ++ scope answers ++ ")" else "".

Definition exclamation : bool :=
  is_breaking_change answers
  && get (breaking_change_exclamation_in_title (settings (config self)))
       false.

Definition title_head : string :=
  let title := prefix answers ++ formatted_scope in
  if exclamation then title ++ "!" else title.

Definition title : string :=
  if PyStr.truthy (jira_issues answers)
  then title_head ++ ": " ++ jira_issues answers ++ " " ++ subject answers
  else title_head ++ ": " ++ subject answers.

Definition formatted_body : string :=
  if PyStr.truthy (body answers) then blank ++ body answers else "".

Definition jira_parts : list string :=
  List.filter PyStr.truthy
    [jira_workflow answers; jira_time answers; jira_comment answers].

Definition formatted_jira : string :=
  match jira_parts with
  | [] => ""
  | _ :: _ => blank ++ PyStr.join " " jira_parts
  end.

Definition effective_footer : string :=
  if is_breaking_change answers
  then "BREAKING CHANGE: " ++ footer answers
  else footer answers.

Definition formatted_footer : string :=
  if PyStr.truthy effective_footer then blank ++ effective_footer else "".

Definition message : string :=
  title ++ formatted_body ++ formatted_jira ++ formatted_footer.

End Message.

Definition example : string :=
  "fix: correct minor typos in code" ++ nl
  ++ nl
  ++ "see the issue for details on the typos fixed" ++ nl
  ++ nl
  ++ "closes issue #12".

Definition schema : string :=
  "<type>(<scope>): <jira_issues> <subject>" ++ nl
  ++ "<BLANK LINE>" ++ nl
  ++ "<body>" ++ nl
  ++ "<BLANK LINE>" ++ nl
  ++ "<jira_workflow> <jira_time> <jira_comment>" ++ nl
  ++ "(BREAKING CHANGE: )<footer>".

Definition change_types : list string :=
  ["build"; "bump"; "chore"; "ci"; "docs"; "feat"; "fix"; "perf";
   "refactor"; "revert"; "style"; "test"].

Definition jira_issues_pattern : string :=
  "([A-Z]{2,}-\d+( [A-Z]{2,}-\d+)*)?".

Definition jira_metadata_pattern : string := "(?:\s#\w+(?: [^\s#]+)?)?".

Definition schema_pattern : string :=
  "(?s)"
  ++ "(" ++ PyStr.join "|" change_types ++ ")"
  ++ "(\(\S+\))?"
  ++ "!?"
  ++ ": "
  ++ jira_issues_pattern
  ++ "\s*([^\n\r]+)?"
  ++ "(\n\n.*)?"
  ++ "("
  ++ jira_metadata_pattern
  ++ ")*"
  ++ "$".

(* ------------------------------------------------------------------ *)
(** ** The filters as the design document words them, and sample inputs *)
(* ------------------------------------------------------------------ *)

(** The subject filter of the design document: trailing periods are
    trimmed, then whitespace, and an empty result is refused. *)
Definition subject_filter_as_specified (text : string) : result string :=
  required_validator (PyStr.strip (PyStr.rstrip_chars "." text))
    "Subject is required.".

(** The jira-time filter of the design document: the trimmed input after
    ["#time "], and nothing for an empty input. *)
Definition jira_time_filter_as_specified (x : string) : string :=
  if PyStr.truthy x then "#time " ++ PyStr.strip x else "".

(** The shape of an issue key: capital letters, a hyphen, digits. *)
Definition upper (c : ascii) : bool := PyStr.between 65 90 c.

Definition issue_key (tok : string) : Prop :=
  exists letters digits tail,
    tok = letters ++ "-" ++ digits ++ tail
    /\ 2 <= String.length letters /\ PyStr.all_chars upper letters = true
    /\ 1 <= String.length digits
    /\ PyStr.all_chars PyStr.isdecimal digits = true
    /\ (tail = "" \/ tail = nl).

Definition cz_with (flag : option bool) : ConventionalCommitsJiraOptionalCz :=
  {| config :=
       {| settings :=
            {| breaking_change_exclamation_in_title := flag;
               encoding := Some "utf-8" |} |} |}.

Definition fix_parser : ConventionalCommitsAnswers :=
  {| jira_issues := ""; jira_workflow := ""; jira_time := "";
     jira_comment := ""; prefix := "fix"; scope := "parser";
     subject := "handle empty input"; body := ""; footer := "";
     is_breaking_change := false |}.

Definition fix_parser_issue : ConventionalCommitsAnswers :=
  {| jira_issues := "JRA-42"; jira_workflow := ""; jira_time := "";
     jira_comment := ""; prefix := "fix"; scope := "parser";
     subject := "handle empty input"; body := ""; footer := "";
     is_breaking_change := false |}.

Definition feat_breaking : ConventionalCommitsAnswers :=
  {| jira_issues := ""; jira_workflow := "#in-review";
     jira_time := "#time 3h 15m"; jira_comment := "";
     prefix := "feat"; scope := ""; subject := "drop the old API";
     body := "the v1 endpoints are gone"; footer := "";
     is_breaking_change := true |}.

Definition docs_trailing_break : ConventionalCommitsAnswers :=
  {| jira_issues := ""; jira_workflow := ""; jira_time := "";
     jira_comment := ""; prefix := "docs"; scope := "";
     subject := "describe the prompts"; body := "";
     footer := "closes #7" ++ blank; is_breaking_change := false |}.

(* ------------------------------------------------------------------ *)
(** ** The choices of the [prefix] prompt, and the grammar as an expression *)
(* ------------------------------------------------------------------ *)

(** One entry of the [choices] of the [prefix] prompt. *)
Record Choice := {
  choice_value : string;
  choice_name : string;
  choice_key : string
}.

Definition prefix_choices : list Choice :=
  [ {| choice_value := "fix";
       choice_name := "fix: A bug fix. Correlates with PATCH in SemVer";
       choice_key := "x" |};
    {| choice_value := "feat";
       choice_name := "feat: A new feature. Correlates with MINOR in SemVer";
       choice_key := "f" |};
    {| choice_value := "docs";
       choice_name := "docs: Documentation only changes";
       choice_key := "d" |};
    {| choice_value := "style";
       choice_name :=
         "style: Changes that do not affect the "
         ++ "meaning of the code (white-space, formatting,"
         ++ " missing semi-colons, etc)";
       choice_key := "s" |};
    {| choice_value := "refactor";
       choice_name :=
         "refactor: A code change that neither fixes "
         ++ "a bug nor adds a feature";
       choice_key := "r" |};
    {| choice_value := "perf";
       choice_name := "perf: A code change that improves performance";
       choice_key := "p" |};
    {| choice_value := "test";
       choice_name := "test: Adding missing or correcting existing tests";
       choice_key := "t" |};
    {| choice_value := "build";
       choice_name :=
         "build: Changes that affect the build system or "
         ++ "external dependencies (example scopes: pip, docker, npm)";
       choice_key := "b" |};
    {| choice_value := "chore";
       choice_name :=
         "chore: Other changes that don't modify src or test " ++ "files";
       choice_key := "c" |};
    {| choice_value := "ci";
       choice_name :=
         "ci: Changes to CI configuration files and "
         ++ "scripts (example scopes: GitLabCI)";
       choice_key := "i" |} ].

(** A character other than the two line breaks [\n] and [\r]. *)
Definition line_char (c : ascii) : bool :=
  negb (Ascii.eqb c Re.LF || Ascii.eqb c Re.CR).

(** A text without line breaks. *)
Definition single_line (s : string) : bool := PyStr.all_chars line_char s.

(** The expression that matches the text [s] and nothing else. *)
Fixpoint literal (s : string) : Re.regex :=
  match s with
  | EmptyString => Re.Empty
  | String c rest =>
      match rest with
      | EmptyString => Re.Lit c
      | String _ _ => Re.Seq (Re.Lit c) (literal rest)
      end
  end.

(** The alternation of the texts of [l]. *)
Fixpoint one_of (l : list string) : Re.regex :=
  match l with
  | [] => Re.Empty
  | x :: rest =>
      match rest with
      | [] => literal x
      | _ :: _ => Re.Alt (literal x) (one_of rest)
      end
  end.

(** [[A-Z]{2,}] and [\d+] *)
Definition capitals_regex : Re.regex :=
  Re.Repeat 2 None (Re.CharSet false [Re.SRange "A" "Z"]).

Definition digits_regex : Re.regex :=
  Re.Repeat 1 None (Re.Class false Re.Digit).

(** [[A-Z]{2,}-\d+] *)
Definition key_regex : Re.regex :=
  Re.Seq capitals_regex (Re.Seq (Re.Lit "-") digits_regex).

(** [[A-Z]{2,}-\d+( [A-Z]{2,}-\d+)*] *)
Definition keys_regex : Re.regex :=
  Re.Seq capitals_regex
    (Re.Seq (Re.Lit "-")
       (Re.Seq digits_regex
          (Re.Repeat 0 None
             (Re.Group true (Re.Seq (Re.Lit " ") key_regex))))).

(** The shape of an issue key, and of a list of them. *)
Definition key_shape (tok : string) : Prop :=
  exists letters digits,
    tok = letters ++ "-" ++ digits
    /\ 2 <= String.length letters /\ PyStr.all_chars upper letters = true
    /\ 1 <= String.length digits
    /\ PyStr.all_chars PyStr.isdecimal digits = true.

(** What [jira_issues_pattern] compiles to. *)
Definition jira_issues_regex : Re.regex :=
  Re.Repeat 0 (Some 1) (Re.Group true keys_regex).

(** What [jira_metadata_pattern] compiles to. *)
Definition jira_metadata_regex : Re.regex :=
  Re.Repeat 0 (Some 1)
    (Re.Group false
       (Re.Seq (Re.Class false Re.Space)
          (Re.Seq (Re.Lit "#")
             (Re.Seq (Re.Repeat 1 None (Re.Class false Re.Word))
                (Re.Repeat 0 (Some 1)
                   (Re.Group false
                      (Re.Seq (Re.Lit " ")
                         (Re.Repeat 1 None
                            (Re.CharSet true
                               [Re.SClass false Re.Space;
                                Re.SChar "#"]))))))))).

(** The parts of [schema_pattern] that follow the colon and the space. *)
Definition schema_tail_regex : Re.regex :=
  Re.Seq jira_issues_regex
    (Re.Seq (Re.Repeat 0 None (Re.Class false Re.Space))
       (Re.Seq
          (Re.Repeat 0 (Some 1)
             (Re.Group true
                (Re.Repeat 1 None
                   (Re.CharSet true [Re.SChar Re.LF; Re.SChar Re.CR]))))
          (Re.Seq
             (Re.Repeat 0 (Some 1)
                (Re.Group true
                   (Re.Seq (Re.Lit Re.LF)
                      (Re.Seq (Re.Lit Re.LF) (Re.Repeat 0 None Re.Any)))))
             (Re.Seq (Re.Repeat 0 None (Re.Group true jira_metadata_regex))
                Re.Eol)))).

(** What [schema_pattern] compiles to. *)
Definition schema_regex : Re.regex :=
  Re.Seq (Re.Group true (one_of change_types))
    (Re.Seq
       (Re.Repeat 0 (Some 1)
          (Re.Group true
             (Re.Seq (Re.Lit "(")
                (Re.Seq (Re.Repeat 1 None (Re.Class true Re.Space))
                   (Re.Lit ")")))))
       (Re.Seq (Re.Repeat 0 (Some 1) (Re.Lit "!"))
          (Re.Seq (Re.Lit ":") (Re.Seq (Re.Lit " ") schema_tail_regex)))).

(** [title] after the colon and the space, and the three sections
    together. *)
Definition title_tail (answers : ConventionalCommitsAnswers) : string :=
  if PyStr.truthy (jira_issues answers)
  then jira_issues answers ++ " " ++ subject answers
  else subject answers.

Definition sections (answers : ConventionalCommitsAnswers) : string :=
  formatted_body answers ++ formatted_jira answers
  ++ formatted_footer answers.

(** Answers as the prompts' filters leave them, for the raw inputs
    ["JRA-123  ABC-45"], ["in review"], ["3h 15m"], ["  My Class  "] and
    ["fix a bug."]. *)
Definition fix_filtered : ConventionalCommitsAnswers :=
  {| jira_issues := "JRA-123 ABC-45"; jira_workflow := "#in-review";
     jira_time := "#time 3h 15m"; jira_comment := "";
     prefix := "fix"; scope := "My-Class"; subject := "fix a bug";
     body := ""; footer := ""; is_breaking_change := false |}.

(* ------------------------------------------------------------------ *)
(** ** Strings *)
(* ------------------------------------------------------------------ *)

Section StringFacts.

Lemma append_nil_r (s : string) : s ++ "" = s.
Proof. induction s as [|c s IH]; simpl; [reflexivity | now rewrite IH]. Qed.

Lemma append_assoc (a b c : string) : (a ++ b) ++ c = a ++ (b ++ c).
Proof. induction a as [|x a IH]; simpl; [reflexivity | now rewrite IH]. Qed.

Lemma length_append (a b : string) :
  String.length (a ++ b) = String.length a + String.length b.
Proof. induction a as [|c a IH]; simpl; [reflexivity | now rewrite IH]. Qed.

Lemma truthy_true (s : string) : PyStr.truthy s = true <-> s <> "".
Proof. destruct s; simpl; split; intros; congruence. Qed.

Lemma truthy_false (s : string) : PyStr.truthy s = false <-> s = "".
Proof. destruct s; simpl; split; intros; congruence. Qed.

Lemma truthy_eqb (s : string) : PyStr.truthy s = negb (String.eqb s "").
Proof. now destruct s. Qed.

Lemma truthy_append_l (a b : string) :
  PyStr.truthy a = true -> PyStr.truthy (a ++ b) = true.
Proof. now destruct a. Qed.

Lemma startswith_append (p rest : string) :
  PyStr.startswith (p ++ rest) p = true.
Proof.
  induction p as [|c p IH]; simpl; [reflexivity|].
  now rewrite Ascii.eqb_refl, IH.
Qed.

Lemma endswith_refl (s : string) : PyStr.endswith s s = true.
Proof.
  destruct s as [|c s]; [reflexivity|].
  cbn [PyStr.endswith]. now rewrite String.eqb_refl.
Qed.

Lemma endswith_append (a b : string) : PyStr.endswith (a ++ b) b = true.
Proof.
  induction a as [|c a IH].
  - apply endswith_refl.
  - cbn [append PyStr.endswith]. rewrite IH. apply orb_true_r.
Qed.

(** [startswith] and [endswith] say what their names say. *)
Lemma startswith_spec (s p : string) :
  PyStr.startswith s p = true <-> exists rest, s = p ++ rest.
Proof.
  split.
  - revert s. induction p as [|c p IH]; intros s H.
    + now exists s.
    + destruct s as [|d s]; [discriminate|]. cbn [PyStr.startswith] in H.
      apply andb_prop in H as [E H]. apply Ascii.eqb_eq in E as ->.
      destruct (IH _ H) as (rest & ->). now exists rest.
  - intros (rest & ->). apply startswith_append.
Qed.

Lemma endswith_spec (s p : string) :
  PyStr.endswith s p = true <-> exists front, s = front ++ p.
Proof.
  split.
  - induction s as [|c s IH]; cbn [PyStr.endswith]; intros H.
    + rewrite orb_false_r in H. apply String.eqb_eq in H as <-.
      now exists "".
    + apply orb_prop in H as [H|H].
      * apply String.eqb_eq in H as <-. now exists "".
      * destruct (IH H) as (front & ->). now exists (String c front).
  - intros (front & ->). apply endswith_append.
Qed.

Lemma all_chars_append (p : ascii -> bool) (a b : string) :
  PyStr.all_chars p (a ++ b) = PyStr.all_chars p a && PyStr.all_chars p b.
Proof.
  induction a as [|c a IH]; simpl; [reflexivity|].
  now rewrite IH, andb_assoc.
Qed.

End StringFacts.

(* ------------------------------------------------------------------ *)
(** ** [strip] *)
(* ------------------------------------------------------------------ *)

Section StripFacts.

Import PyStr.

Variable p : ascii -> bool.

(** [lstrip] removes a prefix of characters to strip, and what is left
    does not start with one. *)
Lemma lstrip_by_spec (s : string) :
  exists pre,
    s = pre ++ lstrip_by p s /\ all_chars p pre = true
    /\ forall c rest, lstrip_by p s = String c rest -> p c = false.
Proof.
  induction s as [|c s (pre & E & A & F)].
  - exists "". repeat split. discriminate.
  - cbn [lstrip_by]. destruct (p c) eqn:Pc.
    + exists (String c pre). cbn [append all_chars].
      rewrite Pc, A, <- E. now repeat split.
    + exists "". repeat split. now intros d rest [= <- _].
Qed.

(** [rstrip] removes a suffix of characters to strip, and what is left
    does not end with one. *)
Lemma rstrip_by_spec (s : string) :
  exists suf,
    s = rstrip_by p s ++ suf /\ all_chars p suf = true
    /\ forall r c, rstrip_by p s = r ++ String c "" -> p c = false.
Proof.
  induction s as [|c s (suf & E & A & L)].
  - exists "". repeat split. now intros [|? ?] ?.
  - cbn [rstrip_by]. destruct (rstrip_by p s) as [|d r'] eqn:R.
    + cbn [append] in E. subst suf. destruct (p c) eqn:Pc.
      * exists (String c s). cbn [append all_chars]. rewrite Pc, A.
        repeat split. now intros [|? ?] ?.
      * exists s. repeat split; [exact A|].
        intros [|x r] e; cbn [append].
        -- now intros [= ->].
        -- intros [= _ H]. now destruct r.
    + exists suf. cbn [append] in *. rewrite <- E. repeat split; [exact A|].
      intros [|x r] e; cbn [append]; [discriminate|].
      intros [= -> H]. now apply (L r e).
Qed.

Lemma strip_by_spec (s : string) :
  exists pre suf,
    s = pre ++ strip_by p s ++ suf
    /\ all_chars p pre = true /\ all_chars p suf = true
    /\ (forall c rest, strip_by p s = String c rest -> p c = false)
    /\ (forall r c, strip_by p s = r ++ String c "" -> p c = false).
Proof.
  unfold strip_by.
  destruct (lstrip_by_spec s) as (pre & E & A & F).
  destruct (rstrip_by_spec (lstrip_by p s)) as (suf & E' & A' & L).
  exists pre, suf. rewrite <- E'. repeat split; auto.
  intros c rest R. rewrite R in E'. cbn [append] in E'.
  now apply (F c (rest ++ suf)).
Qed.

End StripFacts.

(* ------------------------------------------------------------------ *)
(** ** [strip] and [split] *)
(* ------------------------------------------------------------------ *)

Section SplitFacts.

Import PyStr.

Lemma flush_empty : flush "" = [].
Proof. reflexivity. Qed.

(** Reading a run without whitespace only extends the current run. *)
Lemma split_from_run (run : string) :
  no_space run = true ->
  forall cur rest,
    split_from cur (run ++ rest) = split_from (cur ++ run) rest.
Proof.
  induction run as [|c run IH]; intros Hrun cur rest; simpl in *.
  - now rewrite append_nil_r.
  - apply andb_prop in Hrun as [Hc Hrun].
    apply negb_true_iff in Hc. rewrite Hc.
    rewrite (IH Hrun). now rewrite append_assoc.
Qed.

(** Leading whitespace separates nothing. *)
Lemma split_lstrip (s : string) :
  split (lstrip_by isspace s) = split s.
Proof.
  unfold split. induction s as [|c s IH]; simpl; [reflexivity|].
  destruct (isspace c) eqn:Hc; simpl.
  - exact IH.
  - now rewrite Hc.
Qed.

(** Neither does trailing whitespace. *)
Lemma split_from_rstrip (s : string) :
  forall cur, split_from cur (rstrip_by isspace s) = split_from cur s.
Proof.
  induction s as [|c s IH]; intros cur; simpl; [reflexivity|].
  destruct (rstrip_by isspace s) as [|d r] eqn:Hr.
  - destruct (isspace c) eqn:Hc; simpl.
    + now rewrite <- (IH ""), app_nil_r.
    + now rewrite Hc, <- IH.
  - simpl. destruct (isspace c); now rewrite <- IH.
Qed.

Lemma split_strip (s : string) : split (strip s) = split s.
Proof.
  unfold strip, strip_by, split.
  rewrite split_from_rstrip. apply split_lstrip.
Qed.

Lemma split_all_space (s : string) :
  all_space s = true -> split s = [].
Proof.
  unfold split. induction s as [|c s IH]; simpl; [reflexivity|].
  intros H. apply andb_prop in H as [Hc Hs].
  rewrite Hc. now apply IH.
Qed.

(** Every element of the result is a non-empty run without whitespace. *)
Lemma split_from_tokens (s : string) :
  forall cur, no_space cur = true ->
              forallb token (split_from cur s) = true.
Proof.
  induction s as [|c s IH]; intros cur Hcur; simpl.
  - unfold flush, token. destruct (truthy cur) eqn:Ht; simpl; [|reflexivity].
    now rewrite Ht, Hcur.
  - destruct (isspace c) eqn:Hc.
    + rewrite forallb_app, (IH "" eq_refl), andb_true_r.
      unfold flush, token. destruct (truthy cur) eqn:Ht; simpl; [|reflexivity].
      now rewrite Ht, Hcur.
    + apply IH. unfold no_space in *. rewrite all_chars_append, Hcur.
      simpl. now rewrite Hc.
Qed.

Lemma split_tokens (s : string) : forallb token (split s) = true.
Proof. now apply split_from_tokens. Qed.

(** Joining runs with single spaces and splitting again gives them back. *)
Lemma split_join (toks : list string) :
  forallb token toks = true -> split (join " " toks) = toks.
Proof.
  unfold split. induction toks as [|t toks IH]; [reflexivity|].
  intros H. simpl in H. apply andb_prop in H as [Ht Htoks].
  apply andb_prop in Ht as [Hne Hns].
  destruct toks as [|u toks].
  - simpl. rewrite <- (append_nil_r t) at 1.
    rewrite (split_from_run t Hns). simpl. unfold flush. now rewrite Hne.
  - change (join " " (t :: u :: toks))
      with (t ++ String " " (join " " (u :: toks))).
    rewrite (split_from_run t Hns). cbn [append split_from].
    change (isspace " ") with true. cbn iota.
    unfold flush. rewrite Hne. cbn [app]. now rewrite (IH Htoks).
Qed.

(** The tokens of the normalised text are those of the text. *)
Lemma split_normalised (text : string) :
  split (join " " (split (strip text))) = split text.
Proof.
  rewrite split_strip. apply split_join, split_tokens.
Qed.

End SplitFacts.

(* ------------------------------------------------------------------ *)
(** ** The matcher finds exactly the matches *)
(* ------------------------------------------------------------------ *)

Section MatcherFacts.

Import Re.

Variable fl : bool.

Lemma explores_one (r : regex) (p : ascii -> bool) :
  (forall c pos rest,
      Match fl r pos (String c "") rest <-> p c = true) ->
  (forall pos a rest, Match fl r pos a rest -> exists c, a = String c "") ->
  explores fl r (one p).
Proof.
  intros Hp Hone k pos s. unfold one. split.
  - destruct s as [|c s]; [discriminate|].
    destruct (p c) eqn:Pc; [|discriminate]. intros Hk.
    exists (String c ""), s. cbn [append String.length].
    rewrite Nat.add_1_r. repeat split; [now apply Hp | exact Hk].
  - intros (a & rest & -> & M & Hk).
    destruct (Hone _ _ _ M) as (c & ->). cbn [append String.length] in *.
    apply Hp in M. rewrite M. now rewrite Nat.add_1_r in Hk.
Qed.

Ltac tidy :=
  cbn [append String.length] in *;
  rewrite ?append_assoc, ?length_append, ?Nat.add_assoc, ?Nat.add_0_r,
    ?Nat.add_1_r in *.

Ltac same_position :=
  match goal with
  | H : ?k ?p ?rest = true |- ?k ?q ?rest = true =>
      replace q with p; [exact H | tidy; lia]
  end.

Lemma iter_append (r : regex) (n m : nat) :
  forall pos a b rest,
    Iter fl r n pos a (b ++ rest) ->
    Iter fl r m (pos + String.length a) b rest ->
    Iter fl r (n + m) pos (a ++ b) rest.
Proof.
  induction n as [|n IH]; intros pos a b rest Ha Hb.
  - inversion Ha; subst. now tidy.
  - inversion Ha as [|r' n' pos' a1 a2 rest' M I]; subst.
    tidy. cbn [Nat.add]. constructor; tidy; [exact M|].
    apply IH; now tidy.
Qed.

Lemma iter_split (r : regex) (n m : nat) :
  forall pos a rest,
    Iter fl r (n + m) pos a rest ->
    exists a1 a2,
      a = a1 ++ a2 /\ Iter fl r n pos a1 (a2 ++ rest)
      /\ Iter fl r m (pos + String.length a1) a2 rest.
Proof.
  induction n as [|n IH]; intros pos a rest H.
  - exists "", a. tidy. repeat split; [constructor | exact H].
  - cbn [Nat.add] in H.
    inversion H as [|r' n' pos' a1 a2 rest' M I]; subst.
    destruct (IH _ _ _ I) as (b1 & b2 & -> & I1 & I2).
    exists (a1 ++ b1), b2. tidy. split; [reflexivity|].
    split; [|exact I2].
    constructor; now tidy.
Qed.

Section Repetition.

Variable r : regex.
Variable step : cont -> cont.
Hypothesis step_explores : explores fl r step.

Lemma explores_times (n : nat) : explores_iter fl r n (times step n).
Proof.
  induction n as [|n IH]; intros k pos s; cbn [times].
  - split.
    + intros Hk. exists "", s. cbn [append String.length].
      rewrite Nat.add_0_r. repeat split; [constructor | exact Hk].
    + intros (a & rest & -> & I & Hk). inversion I; subst.
      cbn [append String.length] in *. now rewrite Nat.add_0_r in Hk.
  - split.
    + intros H. apply step_explores in H as (a & rest & -> & M & Hk).
      apply IH in Hk as (b & rest' & -> & I & Hk).
      exists (a ++ b), rest'. tidy. repeat split; [|exact Hk].
      constructor; now tidy.
    + intros (a & rest & -> & I & Hk).
      inversion I as [|r' n' pos' a1 a2 rest' M I']; subst.
      apply step_explores.
      exists a1, (a2 ++ rest). tidy.
      repeat split; [exact M|].
      apply IH. exists a2, rest. now repeat split.
Qed.

(** Every success of [upto] comes from some number of iterations within
    the bound. *)
Lemma upto_sound (n : nat) :
  forall (k : cont) pos s,
    upto step n k pos s = true ->
    exists m a rest,
      m <= n /\ s = a ++ rest /\ Iter fl r m pos a rest
      /\ k (pos + String.length a) rest = true.
Proof.
  induction n as [|n IH]; intros k pos s H; cbn [upto] in H.
  - exists 0, "", s. tidy.
    split; [lia|]. split; [reflexivity|]. split; [constructor | exact H].
  - match type of H with
    | (if ?b then _ else _) = _ => destruct b eqn:Hstep
    end.
    + apply step_explores in Hstep as (a & rest & -> & M & Hk).
      destruct (_ <? _)%nat; [|discriminate].
      apply IH in Hk as (m & b & rest' & Hm & -> & I & Hk).
      exists (S m), (a ++ b), rest'. tidy.
      split; [lia|]. split; [reflexivity|]. split; [|exact Hk].
      constructor; now tidy.
    + exists 0, "", s. tidy.
      split; [lia|]. split; [reflexivity|]. split; [constructor | exact H].
Qed.

(** Iterations that match the empty text can be left out, so a bound on
    the iterations, or on the characters left, is enough. *)
Lemma upto_complete (m : nat) :
  forall pos a rest,
    Iter fl r m pos a rest ->
    forall (k : cont) n,
      m <= n \/ String.length (a ++ rest) <= n ->
      k (pos + String.length a) rest = true ->
      upto step n k pos (a ++ rest) = true.
Proof.
  induction m as [|m IH]; intros pos a rest I k n Hn Hk.
  - inversion I; subst. tidy.
    destruct n; cbn [upto]; [exact Hk|]. rewrite Hk.
    now destruct (step _ _ _).
  - inversion I as [|r' m' pos' a1 a2 rest' M I']; subst.
    destruct a1 as [|c a1].
    + tidy. apply (IH _ _ _ I'); [|exact Hk].
      destruct Hn as [Hn|Hn]; [left; lia | right; tidy; lia].
    + destruct n as [|n]; [tidy; lia|].
      cbn [upto].
      match goal with
      | |- (if ?b then _ else _) = _ => replace b with true; [reflexivity|]
      end.
      symmetry. apply step_explores.
      exists (String c a1), (a2 ++ rest).
      split; [now rewrite append_assoc|]. split; [exact M|].
      replace (_ <? _)%nat with true.
      * apply (IH _ _ _ I'); [tidy; lia | same_position].
      * symmetry. apply Nat.ltb_lt. tidy. lia.
Qed.

End Repetition.

(** The matcher succeeds exactly when the expression matches a text at the
    start of the input whose remainder the continuation accepts. *)
Theorem run_explores (r : regex) : wf r = true -> explores fl r (run fl r).
Proof.
  induction r as [| c | | neg cat | neg items | | | r1 IH1 r2 IH2
                 | r1 IH1 r2 IH2 | lo hi r IH | cap r IH];
    intros W; cbn [run wf] in *.
  - intros k pos s. split.
    + intros Hk. exists "", s. cbn [append String.length].
      rewrite Nat.add_0_r. repeat split; [constructor | exact Hk].
    + intros (a & rest & -> & M & Hk). inversion M; subst.
      cbn [append String.length] in *. now rewrite Nat.add_0_r in Hk.
  - apply explores_one.
    + intros d pos rest. split.
      * intros M. inversion M; subst. apply Ascii.eqb_refl.
      * intros E. apply Ascii.eqb_eq in E as <-. constructor.
    + intros pos a rest M. inversion M; subst. now eexists.
  - apply explores_one.
    + intros d pos rest. split.
      * intros M. now inversion M; subst.
      * intros E. now constructor.
    + intros pos a rest M. inversion M; subst. now eexists.
  - apply explores_one.
    + intros d pos rest. split.
      * intros M. now inversion M; subst.
      * intros E. now constructor.
    + intros pos a rest M. inversion M; subst. now eexists.
  - apply explores_one.
    + intros d pos rest. split.
      * intros M. now inversion M; subst.
      * intros E. now constructor.
    + intros pos a rest M. inversion M; subst. now eexists.
  - intros k pos s. split.
    + destruct (Nat.eqb_spec pos 0) as [->|]; [|discriminate].
      intros Hk. exists "", s. cbn [append String.length].
      repeat split; [constructor | exact Hk].
    + intros (a & rest & -> & M & Hk). inversion M; subst.
      cbn [append String.length] in *. exact Hk.
  - intros k pos s. split.
    + destruct (_ || _) eqn:E; [|discriminate].
      intros Hk. exists "", s. cbn [append String.length].
      rewrite Nat.add_0_r. repeat split; [|exact Hk].
      constructor. apply orb_prop in E as [E|E];
        apply String.eqb_eq in E; auto.
    + intros (a & rest & -> & M & Hk). inversion M as [| | | | | |? ? E| | | | |]; subst.
      cbn [append String.length] in *. rewrite Nat.add_0_r in Hk.
      replace (_ || _) with true; [exact Hk|].
      symmetry. destruct E as [->| ->]; reflexivity.
  - apply andb_prop in W as [W1 W2].
    intros k pos s. split.
    + intros H. apply (IH1 W1) in H as (a & rest & -> & M1 & Hk).
      apply (IH2 W2) in Hk as (b & rest' & -> & M2 & Hk).
      exists (a ++ b), rest'. tidy. repeat split; [|exact Hk].
      constructor; now tidy.
    + intros (a & rest & -> & M & Hk).
      inversion M as [| | | | | | |? ? ? a1 a2 ? M1 M2| | | |]; subst.
      apply (IH1 W1).
      exists a1, (a2 ++ rest). tidy.
      repeat split; [exact M1|].
      apply (IH2 W2). exists a2, rest. now repeat split.
  - apply andb_prop in W as [W1 W2].
    intros k pos s. split.
    + destruct (run fl r1 k pos s) eqn:E1.
      * intros _. apply (IH1 W1) in E1 as (a & rest & -> & M & Hk).
        exists a, rest. repeat split; [now apply MAltL | exact Hk].
      * intros E2. apply (IH2 W2) in E2 as (a & rest & -> & M & Hk).
        exists a, rest. repeat split; [now apply MAltR | exact Hk].
    + intros (a & rest & -> & M & Hk).
      inversion M; subst.
      * replace (run fl r1 k pos (a ++ rest)) with true; [reflexivity|].
        symmetry. apply (IH1 W1). now exists a, rest.
      * destruct (run fl r1 k pos (a ++ rest)); [reflexivity|].
        apply (IH2 W2). now exists a, rest.
  - assert (Wr : wf r = true).
    { destruct hi; [now apply andb_prop in W|exact W]. }
    specialize (IH Wr).
    intros k pos s. split.
    + intros H.
      apply (explores_times _ _ IH lo) in H as (a & rest & -> & I & Hk).
      assert (exists m b rest',
                 (forall h, hi = Some h -> lo + m <= h)
                 /\ rest = b ++ rest'
                 /\ Iter fl r m (pos + String.length a) b rest'
                 /\ k (pos + String.length a + String.length b) rest' = true)
        as (m & b & rest' & Hm & -> & I' & Hk').
      { destruct hi as [h|].
        - apply andb_prop in W as [W _]. apply Nat.leb_le in W.
          apply (upto_sound _ _ IH) in Hk as (m & b & rest' & Hm & E & I' & Hk).
          exists m, b, rest'. repeat split; auto.
          intros h' [= <-]. lia.
        - apply (upto_sound _ _ IH) in Hk as (m & b & rest' & Hm & E & I' & Hk).
          exists m, b, rest'. repeat split; auto. discriminate. }
      exists (a ++ b), rest'. tidy. repeat split; [|exact Hk'].
      apply MRepeat with (n := lo + m); [lia | exact Hm|].
      apply iter_append; now tidy.
    + intros (a & rest & -> & M & Hk).
      inversion M as [| | | | | | | | | |? ? ? n ? ? ? Hlo Hhi I|]; subst.
      replace n with (lo + (n - lo)) in I by lia.
      apply iter_split in I as (a1 & a2 & -> & I1 & I2).
      apply (explores_times _ _ IH lo).
      exists a1, (a2 ++ rest). tidy.
      repeat split; [exact I1|].
      destruct hi as [h|].
      * apply (upto_complete _ _ IH _ _ _ _ I2); [|exact Hk].
        left. specialize (Hhi h eq_refl). lia.
      * apply (upto_complete _ _ IH _ _ _ _ I2); [|exact Hk]. now right.
  - intros k pos s. split.
    + intros H. apply (IH W) in H as (a & rest & -> & M & Hk).
      exists a, rest. repeat split; [now constructor | exact Hk].
    + intros (a & rest & -> & M & Hk). inversion M; subst.
      apply (IH W). now exists a, rest.
Qed.

End MatcherFacts.

Section MatchFacts.

Import Re.

Theorem matches_spec (p : pattern) (s : string) :
  wf (body p) = true ->
  matches p s = true
  <-> exists a rest, s = a ++ rest /\ Match (dotall p) (body p) 0 a rest.
Proof.
  intros W. unfold matches. split.
  - intros H. apply (run_explores _ _ W) in H as (a & rest & E & M & _).
    now exists a, rest.
  - intros (a & rest & E & M). apply (run_explores _ _ W).
    now exists a, rest.
Qed.

Theorem fullmatch_spec (p : pattern) (s : string) :
  wf (body p) = true ->
  fullmatch p s = true <-> Match (dotall p) (body p) 0 s "".
Proof.
  intros W. unfold fullmatch. split.
  - intros H. apply (run_explores _ _ W) in H as (a & rest & E & M & Hk).
    apply String.eqb_eq in Hk. subst. now rewrite append_nil_r.
  - intros M. apply (run_explores _ _ W).
    exists s, "". now rewrite append_nil_r.
Qed.

Variable fl : bool.

(** Repeating an expression that matches one character of a class. *)
Section OneCharacter.

Variable r : regex.
Variable p : ascii -> bool.
Hypothesis r_one :
  forall pos a rest,
    Match fl r pos a rest <-> exists c, a = String c "" /\ p c = true.

Lemma iter_chars (n : nat) :
  forall pos a rest,
    Iter fl r n pos a rest
    <-> String.length a = n /\ PyStr.all_chars p a = true.
Proof.
  induction n as [|n IH]; intros pos a rest; split.
  - intros I. now inversion I; subst.
  - intros [L _]. destruct a; [constructor | discriminate].
  - intros I. inversion I as [|r' n' pos' a1 a2 rest' M I']; subst.
    apply r_one in M as (c & -> & Pc). apply IH in I' as [L A].
    cbn [append String.length PyStr.all_chars]. now rewrite Pc, L, A.
  - intros [L A]. destruct a as [|c a]; [discriminate|].
    cbn [String.length PyStr.all_chars] in *.
    apply andb_prop in A as [Pc A]. injection L as L.
    change (String c a) with (String c "" ++ a). constructor.
    + apply r_one. now exists c.
    + now apply IH.
Qed.

Lemma repeat_chars (lo : nat) :
  forall pos a rest,
    Match fl (Repeat lo None r) pos a rest
    <-> lo <= String.length a /\ PyStr.all_chars p a = true.
Proof.
  intros pos a rest. split.
  - intros M. inversion M as [| | | | | | | | | |? ? ? n ? ? ? Hlo Hhi I|]; subst.
    apply iter_chars in I as [<- A]. now split.
  - intros [L A]. apply MRepeat with (n := String.length a);
      [exact L | discriminate | now apply iter_chars].
Qed.

End OneCharacter.

End MatchFacts.

Section IssueKey.

Import Re.

Lemma jira_issue_key_compiled :
  compile jira_issue_key
  = Some {| dotall := false;
            body :=
              Seq Bol
                (Seq (Repeat 2 None (CharSet false [SRange "A" "Z"]))
                   (Seq (Lit "-")
                      (Seq (Repeat 1 None (Class false Digit)) Eol))) |}.
Proof. reflexivity. Qed.

Lemma match_upper (fl : bool) :
  forall pos a rest,
    Match fl (CharSet false [SRange "A" "Z"]) pos a rest
    <-> exists c, a = String c "" /\ upper c = true.
Proof.
  intros pos a rest. split.
  - intros M. inversion M as [| | | |? ? c ? ? H| | | | | | |]; subst.
    exists c. split; [reflexivity|].
    cbn [xorb existsb item_has] in H. now rewrite orb_false_r in H.
  - intros (c & -> & U). constructor.
    cbn [xorb existsb item_has]. now rewrite orb_false_r.
Qed.

Lemma match_digit (fl : bool) :
  forall pos a rest,
    Match fl (Class false Digit) pos a rest
    <-> exists c, a = String c "" /\ PyStr.isdecimal c = true.
Proof.
  intros pos a rest. split.
  - intros M. inversion M; subst. now eexists.
  - intros (c & -> & D). now constructor.
Qed.

(** What [^[A-Z]{2,}-\d+$] matches: two or more capital letters, a hyphen
    and one or more digits, up to the end or to a final line break. *)
Theorem jira_issue_key_spec (tok : string) :
  re_match jira_issue_key tok = true <-> issue_key tok.
Proof.
  unfold re_match. rewrite jira_issue_key_compiled.
  rewrite matches_spec by reflexivity. cbn [dotall body]. split.
  - intros (a & rest & -> & M).
    inversion M as [| | | | | | |? ? ? a0 a1 ? M0 M1| | | |]; subst.
    inversion M0; subst. clear M0.
    inversion M1 as [| | | | | | |? ? ? letters a2 ? Ml M2| | | |]; subst.
    inversion M2 as [| | | | | | |? ? ? h a3 ? Mh M3| | | |]; subst.
    inversion Mh; subst. clear Mh.
    inversion M3 as [| | | | | | |? ? ? digits a4 ? Md M4| | | |]; subst.
    inversion M4 as [| | | | | |? ? T| | | | |]; subst.
    apply (repeat_chars _ _ _ (match_upper false)) in Ml as [Ll Al].
    apply (repeat_chars _ _ _ (match_digit false)) in Md as [Ld Ad].
    exists letters, digits, rest.
    cbn [append]. rewrite !append_assoc, append_nil_r. cbn [append].
    repeat split; auto.
  - intros (letters & digits & tail & -> & Ll & Al & Ld & Ad & T).
    exists (letters ++ "-" ++ digits), tail.
    split; [now rewrite !append_assoc|].
    change (letters ++ "-" ++ digits)
      with ("" ++ letters ++ "-" ++ digits).
    constructor; [constructor|].
    constructor.
    + now apply (repeat_chars _ _ _ (match_upper false)).
    + constructor; [constructor|].
      rewrite <- (append_nil_r digits). constructor.
      * now apply (repeat_chars _ _ _ (match_digit false)).
      * constructor. exact T.
Qed.

(** A token of [split] holds no line break, so for a token the pattern
    [^[A-Z]{2,}-\d+$] asks for exactly: capital letters, two or more, a
    hyphen, and digits, one or more. *)
Lemma token_issue_key (tok : string) :
  PyStr.token tok = true ->
  Re.re_match jira_issue_key tok = true
  <-> exists letters digits,
      tok = letters ++ "-" ++ digits
      /\ 2 <= String.length letters /\ PyStr.all_chars upper letters = true
      /\ 1 <= String.length digits /\ PyStr.all_chars PyStr.isdecimal digits = true.
Proof.
  intros T. apply andb_prop in T as [_ T]. unfold PyStr.no_space in T.
  rewrite jira_issue_key_spec. split.
  - intros (letters & digits & tail & -> & Ll & Al & Ld & Ad & [-> | ->]).
    + exists letters, digits. now rewrite append_nil_r.
    + rewrite <- !append_assoc, all_chars_append in T.
      apply andb_prop in T as [_ T]. discriminate.
  - intros (letters & digits & -> & Ll & Al & Ld & Ad).
    exists letters, digits, "". rewrite append_nil_r. auto 10.
Qed.

End IssueKey.

(* ------------------------------------------------------------------ *)
(** ** The composed message *)
(* ------------------------------------------------------------------ *)

Section MessageFacts.

Variable self : ConventionalCommitsJiraOptionalCz.
Variable answers : ConventionalCommitsAnswers.

Lemma title_head_explicit :
  title_head self answers
  = prefix answers
    ++ (if String.eqb (scope answers) "" then ""
        else "(" ++ scope answers ++ ")")
    ++ (if is_breaking_change answers
           && get (breaking_change_exclamation_in_title
                     (settings (config self))) false
        then "!" else "").
Proof.
  unfold title_head, formatted_scope, exclamation.
  rewrite truthy_eqb.
  destruct (String.eqb (scope answers) "");
    destruct (is_breaking_change answers && get _ false);
    cbn [negb]; now rewrite ?append_nil_r, ?append_assoc.
Qed.

Lemma sections_absent :
  body answers = "" -> jira_workflow answers = "" ->
  jira_time answers = "" -> jira_comment answers = "" ->
  footer answers = "" -> is_breaking_change answers = false ->
  formatted_body answers ++ formatted_jira answers
  ++ formatted_footer answers = "".
Proof.
  intros Hb Hw Ht Hc Hf Hk.
  unfold formatted_body, formatted_jira, jira_parts, formatted_footer,
    effective_footer.
  now rewrite Hb, Hw, Ht, Hc, Hf, Hk.
Qed.

(** C1: with empty [jira_issues], [message(answers)] begins with the
    prefix, the scope in parentheses if there is a scope, ["!"] if the
    change is breaking and the setting [breaking_change_exclamation_in_title]
    is enabled, [": "] and the subject; it is exactly that text when the
    body, metadata and footer sections are absent.  Nothing is assumed of
    the other fields. *)
Theorem message_title_without_issues :
  jira_issues answers = "" ->
  PyStr.startswith (message self answers)
    (prefix answers
     ++ (if String.eqb (scope answers) "" then ""
         else "(" ++ scope answers ++ ")")
     ++ (if is_breaking_change answers
            && get (breaking_change_exclamation_in_title
                      (settings (config self))) false
         then "!" else "")
     ++ ": " ++ subject answers) = true
  /\ (body answers = "" -> jira_workflow answers = "" ->
      jira_time answers = "" -> jira_comment answers = "" ->
      footer answers = "" -> is_breaking_change answers = false ->
      message self answers
      = prefix answers
        ++ (if String.eqb (scope answers) "" then ""
            else "(" ++ scope answers ++ ")")
        ++ (if is_breaking_change answers
               && get (breaking_change_exclamation_in_title
                         (settings (config self))) false
            then "!" else "")
        ++ ": " ++ subject answers).
Proof.
  intros H. unfold message, title. rewrite H. cbn [PyStr.truthy].
  rewrite title_head_explicit. split.
  - match goal with
    | |- PyStr.startswith ?m ?p = true =>
        replace m
          with (p ++ formatted_body answers ++ formatted_jira answers
                ++ formatted_footer answers)
          by now rewrite !append_assoc
    end.
    apply startswith_append.
  - intros Hb Hw Ht Hc Hf Hk.
    rewrite (sections_absent Hb Hw Ht Hc Hf Hk).
    now rewrite append_nil_r, !append_assoc.
Qed.

(** C2: with non-empty [jira_issues], the title of [message(answers)] is
    the title head (prefix, scope in parentheses if any, ["!"] for a
    breaking change under the setting), [": "], the issue keys as given,
    one space, and the subject; the message begins with that title. *)
Theorem message_title_with_issues :
  jira_issues answers <> "" ->
  title self answers
  = prefix answers
    ++ (if String.eqb (scope answers) "" then ""
        else "(" ++ scope answers ++ ")")
    ++ (if is_breaking_change answers
           && get (breaking_change_exclamation_in_title
                     (settings (config self))) false
        then "!" else "")
    ++ ": " ++ jira_issues answers ++ " " ++ subject answers
  /\ PyStr.startswith (message self answers)
       (prefix answers
        ++ (if String.eqb (scope answers) "" then ""
            else "(" ++ scope answers ++ ")")
        ++ (if is_breaking_change answers
               && get (breaking_change_exclamation_in_title
                         (settings (config self))) false
            then "!" else "")
        ++ ": " ++ jira_issues answers ++ " " ++ subject answers) = true.
Proof.
  intros H. apply truthy_true in H. unfold message, title. rewrite H.
  rewrite title_head_explicit.
  split; [now rewrite !append_assoc|].
  match goal with
  | |- PyStr.startswith ?m ?p = true =>
      replace m
        with (p ++ formatted_body answers ++ formatted_jira answers
              ++ formatted_footer answers)
        by now rewrite !append_assoc
  end.
  apply startswith_append.
Qed.

Lemma message_sections :
  message self answers
  = title self answers ++ formatted_body answers
    ++ formatted_jira answers ++ formatted_footer answers.
Proof. reflexivity. Qed.

Lemma message_ends_with_footer :
  PyStr.endswith (message self answers) (formatted_footer answers) = true.
Proof.
  rewrite message_sections, <- !append_assoc. apply endswith_append.
Qed.

(** C3: when [is_breaking_change] is true the footer section of
    [message(answers)] is the blank line, ["BREAKING CHANGE: "] and the
    footer; it is never empty, the message ends with it, and with an
    empty footer the message ends with the blank line followed by
    ["BREAKING CHANGE: "], whatever the other fields are. *)
Theorem breaking_change_footer :
  is_breaking_change answers = true ->
  formatted_footer answers
  = nl ++ nl ++ "BREAKING CHANGE: " ++ footer answers
  /\ formatted_footer answers <> ""
  /\ PyStr.endswith (message self answers)
       (nl ++ nl ++ "BREAKING CHANGE: " ++ footer answers) = true
  /\ (footer answers = "" ->
      PyStr.endswith (message self answers)
        (nl ++ nl ++ "BREAKING CHANGE: ") = true).
Proof.
  intros Hk.
  assert (E : formatted_footer answers
              = nl ++ nl ++ "BREAKING CHANGE: " ++ footer answers).
  { unfold formatted_footer, effective_footer. now rewrite Hk. }
  split; [exact E|]. split; [rewrite E; discriminate|].
  split.
  - rewrite <- E. apply message_ends_with_footer.
  - intros Hf. pose proof message_ends_with_footer as M.
    rewrite E, Hf in M. exact M.
Qed.

(** C7: the issue-tracker metadata section of [message(answers)] collects
    the non-empty members of [jira_workflow; jira_time; jira_comment] in
    that order and joins them with single spaces; it is the blank line
    followed by the joined text when something was collected and empty
    otherwise, and sits between the body and footer sections. *)
Theorem issue_tracker_metadata :
  formatted_jira answers
  = (let collected :=
       List.filter (fun x => negb (String.eqb x ""))
         [jira_workflow answers; jira_time answers; jira_comment answers] in
     if (List.length collected =? 0)%nat then ""
     else nl ++ nl ++ PyStr.join " " collected)
  /\ message self answers
     = title self answers ++ formatted_body answers
       ++ formatted_jira answers ++ formatted_footer answers.
Proof.
  split; [|reflexivity].
  unfold formatted_jira, jira_parts.
  rewrite (filter_ext PyStr.truthy (fun x => negb (String.eqb x "")))
    by (intros x; apply truthy_eqb).
  now destruct (List.filter _ _).
Qed.

End MessageFacts.

(* ------------------------------------------------------------------ *)
(** ** Where the message ends *)
(* ------------------------------------------------------------------ *)

Section MessageEnd.

Import PyStr.

Lemma append_empty (a b : string) : a ++ b = "" -> b = "".
Proof. destruct a; simpl; [trivial | discriminate]. Qed.

(** The last character of a concatenation is that of its last non-empty
    part. *)
Lemma endswith_nl_append (a b : string) :
  endswith (a ++ b) nl = if truthy b then endswith b nl else endswith a nl.
Proof.
  induction a as [|c a IH].
  - destruct b; reflexivity.
  - cbn [append endswith]. rewrite IH.
    destruct b as [|d b]; cbn [truthy].
    + now rewrite append_nil_r.
    + replace (String c (a ++ String d b) =? nl) with false;
        [reflexivity|].
      symmetry. apply String.eqb_neq. unfold nl. intros E.
      injection E as _ E. now apply append_empty in E.
Qed.

Lemma endswith_blank_nl (s : string) :
  endswith s blank = true -> endswith s nl = true.
Proof.
  induction s as [|c s IH]; [discriminate|].
  cbn [endswith]. intros H. apply orb_prop in H as [H|H].
  - apply String.eqb_eq in H. injection H as _ ->.
    rewrite endswith_refl. apply orb_true_r.
  - rewrite (IH H). apply orb_true_r.
Qed.

Lemma nl_free_append (a b : string) :
  endswith a nl = false -> endswith b nl = false ->
  endswith (a ++ b) nl = false.
Proof.
  intros Ha Hb. rewrite endswith_nl_append. now destruct (truthy b).
Qed.

Lemma nl_free_append_r (a b : string) :
  truthy b = true -> endswith b nl = false ->
  endswith (a ++ b) nl = false.
Proof. intros Tb Hb. now rewrite endswith_nl_append, Tb. Qed.

Lemma nl_free_join (parts : list string) :
  Forall (fun p => endswith p nl = false) parts ->
  endswith (join " " parts) nl = false.
Proof.
  induction 1 as [|p parts Hp Hparts IH]; [reflexivity|].
  destruct parts as [|q parts]; [exact Hp|].
  change (join " " (p :: q :: parts))
    with (p ++ " " ++ join " " (q :: parts)).
  apply nl_free_append_r; [reflexivity|].
  now apply nl_free_append.
Qed.

Lemma join_truthy (p : string) (ps : list string) :
  truthy p = true -> truthy (join " " (p :: ps)) = true.
Proof.
  intros Hp. destruct ps; [exact Hp|].
  cbn [join]. now apply truthy_append_l.
Qed.

Variable self : ConventionalCommitsJiraOptionalCz.
Variable answers : ConventionalCommitsAnswers.

(** Every separator comes with the non-empty text it introduces. *)
Lemma sections_shape :
  (formatted_body answers = ""
   \/ exists t, t <> "" /\ formatted_body answers = nl ++ nl ++ t)
  /\ (formatted_jira answers = ""
      \/ exists t, t <> "" /\ formatted_jira answers = nl ++ nl ++ t)
  /\ (formatted_footer answers = ""
      \/ exists t, t <> "" /\ formatted_footer answers = nl ++ nl ++ t).
Proof.
  unfold formatted_body, formatted_jira, formatted_footer.
  repeat split.
  - destruct (truthy (body answers)) eqn:T; [right | now left].
    exists (body answers). split; [now apply truthy_true | reflexivity].
  - destruct (jira_parts answers) as [|p ps] eqn:E; [now left | right].
    exists (join " " (p :: ps)). split; [|reflexivity].
    apply truthy_true, join_truthy.
    assert (In p (jira_parts answers)) as I by (rewrite E; now left).
    unfold jira_parts in I. now apply filter_In in I.
  - destruct (truthy (effective_footer answers)) eqn:T; [right | now left].
    exists (effective_footer answers).
    split; [now apply truthy_true | reflexivity].
Qed.

(** A text of two characters or more decides whether what it ends
    finishes with the blank line. *)
Lemma endswith_blank_append (a b : string) :
  2 <= String.length b ->
  endswith (a ++ b) (nl ++ nl) = endswith b (nl ++ nl).
Proof.
  intros L. induction a as [|c a IH]; [reflexivity|].
  cbn [append endswith]. rewrite IH.
  replace (String.eqb (String c (a ++ b)) (nl ++ nl)) with false;
    [reflexivity|].
  symmetry. apply String.eqb_neq. intros E.
  apply (f_equal String.length) in E.
  cbn [String.length append nl] in E. rewrite length_append in E. lia.
Qed.

(** A section ends with the blank line when its text does, or when its
    text is one line break after the separator. *)
Lemma endswith_blank_section (t : string) :
  truthy t = true ->
  endswith (nl ++ nl ++ t) (nl ++ nl)
  = endswith t (nl ++ nl) || String.eqb t nl.
Proof.
  destruct t as [|c t]; [discriminate|]. intros _.
  change (nl ++ nl ++ String c t)
    with (String Re.LF (String Re.LF (String c t))).
  cbn [endswith].
  assert (E1 : String.eqb (String Re.LF (String Re.LF (String c t)))
                 (nl ++ nl) = false).
  { apply String.eqb_neq. unfold nl. cbn [append]. discriminate. }
  assert (E2 : String.eqb (String Re.LF (String c t)) (nl ++ nl)
               = String.eqb (String c t) nl) by reflexivity.
  rewrite E1, E2. cbn [orb].
  destruct (String.eqb (String c t) nl),
    (String.eqb (String c t) (nl ++ nl)), (endswith t (nl ++ nl));
    reflexivity.
Qed.

(** After a space, only the text that follows counts. *)
Lemma endswith_blank_spaced (a s : string) :
  endswith (a ++ String " " s) (nl ++ nl) = endswith s (nl ++ nl).
Proof.
  destruct s as [|c s].
  - destruct (endswith (a ++ " ") (nl ++ nl)) eqn:E; [|reflexivity].
    apply endswith_blank_nl in E. now rewrite endswith_nl_append in E.
  - rewrite endswith_blank_append by (cbn [String.length]; lia).
    reflexivity.
Qed.

Lemma title_end :
  endswith (title self answers) (nl ++ nl)
  = endswith (subject answers) (nl ++ nl).
Proof.
  unfold title. destruct (truthy (jira_issues answers)).
  - replace (title_head self answers ++ ": " ++ jira_issues answers ++ " "
             ++ subject answers)
      with ((title_head self answers ++ ": " ++ jira_issues answers)
            ++ String " " (subject answers))
      by now rewrite !append_assoc.
    apply endswith_blank_spaced.
  - replace (title_head self answers ++ ": " ++ subject answers)
      with ((title_head self answers ++ ":")
            ++ String " " (subject answers))
      by now rewrite append_assoc.
    apply endswith_blank_spaced.
Qed.

Lemma section_long (t : string) :
  truthy t = true -> 2 <= String.length (nl ++ nl ++ t).
Proof. intros _. cbn [append String.length nl]. lia. Qed.

Lemma jira_parts_joined :
  truthy (join " " (jira_parts answers))
  = match jira_parts answers with [] => false | _ :: _ => true end.
Proof.
  destruct (jira_parts answers) as [|p ps] eqn:E; [reflexivity|].
  apply join_truthy.
  assert (In p (jira_parts answers)) as I by (rewrite E; now left).
  unfold jira_parts in I. now apply filter_In in I.
Qed.

(** C9, as amended: each section of [message(answers)] is empty or is the
    blank line followed by non-empty text, and [message(answers)] ends
    with the blank line exactly when the text of its last non-empty part
    does (the footer text, with its breaking-change prefix, or else the
    joined metadata, or else the body, or else the subject), or when that
    text is a footer, metadata or body text made of one line break. *)
Theorem message_end :
  (formatted_body answers = ""
   \/ exists t, t <> "" /\ formatted_body answers = nl ++ nl ++ t)
  /\ (formatted_jira answers = ""
      \/ exists t, t <> "" /\ formatted_jira answers = nl ++ nl ++ t)
  /\ (formatted_footer answers = ""
      \/ exists t, t <> "" /\ formatted_footer answers = nl ++ nl ++ t)
  /\ endswith (message self answers) (nl ++ nl)
     = (let closes :=
          fun t => endswith t (nl ++ nl) || String.eqb t nl in
        let footer_text :=
          if is_breaking_change answers
          then "BREAKING CHANGE: " ++ footer answers
          else footer answers in
        let metadata :=
          join " "
            (List.filter (fun x => negb (String.eqb x ""))
               [jira_workflow answers; jira_time answers;
                jira_comment answers]) in
        if negb (String.eqb footer_text "") then closes footer_text
        else if negb (String.eqb metadata "") then closes metadata
        else if negb (String.eqb (body answers) "")
             then closes (body answers)
             else endswith (subject answers) (nl ++ nl)).
Proof.
  destruct sections_shape as (Sb & Sj & Sf).
  split; [exact Sb|]. split; [exact Sj|]. split; [exact Sf|]. cbv zeta.
  rewrite <- (filter_ext truthy (fun x => negb (String.eqb x "")))
    by (intros x; apply truthy_eqb).
  fold (jira_parts answers). fold (effective_footer answers).
  rewrite <- !truthy_eqb, jira_parts_joined.
  unfold message, formatted_footer, formatted_jira, formatted_body.
  destruct (truthy (effective_footer answers)) eqn:Tf.
  - pose proof (section_long _ Tf) as L.
    set (ff := nl ++ nl ++ effective_footer answers) in *.
    change (blank ++ effective_footer answers) with ff.
    rewrite (endswith_blank_append (title self answers))
      by (rewrite !length_append; lia).
    rewrite (endswith_blank_append (if truthy (body answers) then _ else _))
      by (rewrite !length_append; lia).
    rewrite (endswith_blank_append _ ff) by exact L.
    now apply endswith_blank_section.
  - rewrite !append_nil_r.
    destruct (jira_parts answers) as [|p ps] eqn:Ej.
    + rewrite !append_nil_r.
      destruct (truthy (body answers)) eqn:Tb.
      * rewrite endswith_blank_append by now apply section_long.
        now apply endswith_blank_section.
      * rewrite append_nil_r. apply title_end.
    + assert (Tj : truthy (join " " (p :: ps)) = true).
      { rewrite <- Ej. rewrite jira_parts_joined. now rewrite Ej. }
      pose proof (section_long _ Tj) as L.
      set (fj := nl ++ nl ++ join " " (p :: ps)) in *.
      change (blank ++ join " " (p :: ps)) with fj.
      rewrite (endswith_blank_append (title self answers))
        by (rewrite !length_append; lia).
      rewrite (endswith_blank_append _ fj) by exact L.
      now apply endswith_blank_section.
Qed.

End MessageEnd.

(** C9, as stated, fails: a footer that ends with a blank line is put at
    the end of the message as it is. *)
Lemma message_may_end_with_blank_line :
  PyStr.endswith (message (cz_with None) docs_trailing_break) (nl ++ nl)
  = true.
Proof. reflexivity. Qed.

(* ------------------------------------------------------------------ *)
(** ** The input filters *)
(* ------------------------------------------------------------------ *)

Section Filters.

Import PyStr exceptions.

Lemma required_validator_eq (answer msg : string) :
  required_validator answer msg
  = if String.eqb answer "" then Raise (AnswerRequiredError msg)
    else Return answer.
Proof. unfold required_validator. now destruct answer. Qed.

(** The filters above are the ones the prompts carry. *)
Lemma prompt_filters (multiple_line_breaker : string -> string) :
  filter_of multiple_line_breaker "jira_issues" = Some _parse_jira_issues
  /\ filter_of multiple_line_breaker "subject" = Some _parse_subject
  /\ filter_of multiple_line_breaker "jira_time" = pure jira_time_filter
  /\ filter_of multiple_line_breaker "footer" = None.
Proof. repeat split. Qed.
(** C4, as stated, fails: a leading period is removed as well. *)
Lemma parse_subject_strips_leading_period :
  _parse_subject ".a" = Return "a"
  /\ subject_filter_as_specified ".a" = Return ".a"
  /\ _parse_subject ".a" <> subject_filter_as_specified ".a".
Proof. repeat split. discriminate. Qed.

(** C4, as amended: the subject filter strips periods from both ends of
    the input, then whitespace from both ends, and returns the result; it
    raises the required-field error with the message
    ["Subject is required."] exactly when that result is empty.  So
    ["fix a bug."] gives ["fix a bug"], and ["   "] and ["."] raise. *)
Theorem parse_subject_spec (text : string) :
  _parse_subject text
  = (let cleaned := strip (strip_chars "." text) in
     if String.eqb cleaned ""
     then Raise (AnswerRequiredError "Subject is required.")
     else Return cleaned)
  /\ (_parse_subject text = Raise (AnswerRequiredError "Subject is required.")
      <-> strip (strip_chars "." text) = "")
  /\ _parse_subject "fix a bug." = Return "fix a bug"
  /\ _parse_subject "   " = Raise (AnswerRequiredError "Subject is required.")
  /\ _parse_subject "." = Raise (AnswerRequiredError "Subject is required.").
Proof.
  unfold _parse_subject at 1 2. rewrite required_validator_eq. cbv zeta.
  split; [reflexivity|]. split; [|repeat split].
  destruct (String.eqb_spec (strip (strip_chars "." text)) "") as [E|E].
  - tauto.
  - split; [discriminate | contradiction].
Qed.

(** C6, as stated, fails: the input is not trimmed. *)
Lemma jira_time_filter_keeps_whitespace :
  jira_time_filter " 3h " = "#time  3h "
  /\ jira_time_filter_as_specified " 3h " = "#time 3h"
  /\ jira_time_filter " 3h " <> jira_time_filter_as_specified " 3h ".
Proof. repeat split. discriminate. Qed.

(** C6, as amended: the jira-time filter returns ["#time "] followed by
    the input as it is when the input is non-empty, and the empty string
    when the input is empty. *)
Theorem jira_time_filter_spec (x : string) :
  jira_time_filter x
  = (if String.eqb x "" then "" else "#time " ++ x)
  /\ (jira_time_filter x = "" <-> x = "").
Proof.
  unfold jira_time_filter. rewrite truthy_eqb.
  destruct (String.eqb_spec x "") as [E|E]; cbn [negb].
  - tauto.
  - split; [reflexivity|]. split; [discriminate | contradiction].
Qed.

Lemma parse_jira_issues_eq (text : string) :
  _parse_jira_issues text
  = if forallb (Re.re_match jira_issue_key) (split text)
    then Return (join " " (split text))
    else Raise (AnswerRequiredError
                  "Enter valid Jira issue keys (e.g., JRA-123).").
Proof.
  unfold _parse_jira_issues. cbv zeta.
  rewrite split_normalised, split_strip.
  now destruct (forallb _ _).
Qed.

(** C10: on an input made of whitespace only, the empty input included,
    the jira-issues filter returns the empty string and raises nothing:
    there is no token to check. *)
Theorem parse_jira_issues_blank (text : string) :
  all_space text = true ->
  split text = [] /\ _parse_jira_issues text = Return "".
Proof.
  intros H. apply split_all_space in H.
  split; [exact H|]. now rewrite parse_jira_issues_eq, H.
Qed.

(** C5, as stated, fails on the class of the error: it is the
    required-answer error, the one the subject filter raises, and no
    class of the host's exceptions is called [AnswerValidationError]. *)
Lemma parse_jira_issues_error_class :
  (exists e, _parse_jira_issues "jra-123" = Raise e
             /\ class_name e = "AnswerRequiredError"
             /\ class_name e <> "AnswerValidationError")
  /\ forall e, class_name e <> "AnswerValidationError".
Proof.
  split.
  - eexists. repeat split. discriminate.
  - intros []; discriminate.
Qed.

(** C5, as amended: the jira-issues filter returns the whitespace-separated
    tokens of the input joined by single spaces; it raises an
    [AnswerRequiredError] with the message
    ["Enter valid Jira issue keys (e.g., JRA-123)."] exactly when some
    token fails to match [^[A-Z]{2,}-\d+$]. *)
Theorem parse_jira_issues_spec (text : string) :
  _parse_jira_issues text
  = (if existsb (fun tok => negb (Re.re_match "^[A-Z]{2,}-\d+$" tok))
          (split text)
     then Raise (AnswerRequiredError
                   "Enter valid Jira issue keys (e.g., JRA-123).")
     else Return (join " " (split text)))
  /\ ((exists tok, In tok (split text)
                   /\ Re.re_match "^[A-Z]{2,}-\d+$" tok = false)
      <-> _parse_jira_issues text
          = Raise (AnswerRequiredError
                     "Enter valid Jira issue keys (e.g., JRA-123).")).
Proof.
  rewrite parse_jira_issues_eq. fold jira_issue_key.
  destruct (forallb (Re.re_match jira_issue_key) (split text)) eqn:F.
  - assert (X : existsb (fun tok => negb (Re.re_match jira_issue_key tok))
                  (split text) = false).
    { apply not_true_is_false. intros X.
      apply existsb_exists in X as (tok & I & N).
      rewrite forallb_forall in F. rewrite (F tok I) in N. discriminate. }
    rewrite X. split; [reflexivity|]. split; [|discriminate].
    intros (tok & I & N). rewrite forallb_forall in F.
    rewrite (F tok I) in N. discriminate.
  - assert (X : exists tok, In tok (split text)
                            /\ Re.re_match jira_issue_key tok = false).
    { clear - F. induction (split text) as [|t ts IH]; [discriminate|].
      cbn [forallb] in F. apply andb_false_iff in F as [F|F].
      - exists t. split; [now left | exact F].
      - destruct (IH F) as (tok & I & N). exists tok.
        split; [now right | exact N]. }
    split; [|tauto].
    replace (existsb _ _) with true; [reflexivity|].
    symmetry. apply existsb_exists. destruct X as (tok & I & N).
    exists tok. split; [exact I | now rewrite N].
Qed.

End Filters.

(* ------------------------------------------------------------------ *)
(** ** The grammar *)
(* ------------------------------------------------------------------ *)

(** C8: the pattern of [schema_pattern()] compiles, has the flag under
    which [.] matches line breaks too, ends with the anchor [$], and
    matches the message of [example()] from its first character to the end
    of the input. *)
Theorem schema_pattern_matches_example :
  exists p,
    Re.compile schema_pattern = Some p
    /\ Re.dotall p = true
    /\ PyStr.endswith schema_pattern "$" = true
    /\ Re.re_match schema_pattern example = true
    /\ Re.fullmatch p example = true
    /\ Re.Match (Re.dotall p) (Re.body p) 0 example "".
Proof.
  destruct (Re.compile schema_pattern) as [p|] eqn:C;
    [|vm_compute in C; discriminate].
  exists p. split; [reflexivity|].
  assert (F : Re.fullmatch p example = true).
  { vm_compute in C. injection C as <-. vm_compute. reflexivity. }
  assert (W : Re.wf (Re.body p) = true).
  { vm_compute in C. injection C as <-. reflexivity. }
  split; [vm_compute in C; now injection C as <-|].
  split; [reflexivity|].
  split; [unfold Re.re_match; rewrite C; vm_compute in C;
          injection C as <-; vm_compute; reflexivity|].
  split; [exact F|]. now apply fullmatch_spec.
Qed.

(* ------------------------------------------------------------------ *)
(** ** The scenarios of the design document *)
(* ------------------------------------------------------------------ *)

Lemma fix_parser_message :
  jira_issues fix_parser = ""
  /\ message (cz_with None) fix_parser = "fix(parser): handle empty input".
Proof.
  split; [reflexivity|].
  exact (proj2 (message_title_without_issues (cz_with None) fix_parser
                  eq_refl)
           eq_refl eq_refl eq_refl eq_refl eq_refl eq_refl).
Defined.

Lemma fix_parser_issue_title :
  jira_issues fix_parser_issue <> ""
  /\ title (cz_with None) fix_parser_issue
     = "fix(parser): JRA-42 handle empty input".
Proof.
  assert (H : jira_issues fix_parser_issue <> "") by discriminate.
  split; [exact H|].
  exact (proj1 (message_title_with_issues (cz_with None) fix_parser_issue H)).
Defined.

Lemma feat_breaking_footer :
  is_breaking_change feat_breaking = true
  /\ PyStr.endswith (message (cz_with (Some true)) feat_breaking)
       (nl ++ nl ++ "BREAKING CHANGE: ") = true.
Proof.
  split; [reflexivity|].
  apply (breaking_change_footer (cz_with (Some true)) feat_breaking eq_refl).
  reflexivity.
Defined.

Lemma feat_breaking_end :
  PyStr.endswith (message (cz_with (Some true)) feat_breaking) (nl ++ nl)
  = false.
Proof.
  rewrite (proj2 (proj2 (proj2 (message_end (cz_with (Some true))
                                  feat_breaking)))).
  reflexivity.
Defined.

Lemma parse_jira_issues_spaces :
  PyStr.all_space "   " = true /\ _parse_jira_issues "   " = Return "".
Proof.
  split; [reflexivity|].
  apply (parse_jira_issues_blank "   "). reflexivity.
Defined.

(* ------------------------------------------------------------------ *)
(** ** The compiled grammar *)
(* ------------------------------------------------------------------ *)

Lemma schema_pattern_compiled :
  Re.compile schema_pattern
  = Some {| Re.dotall := true; Re.body := schema_regex |}.
Proof. vm_compute. reflexivity. Qed.

Lemma jira_issues_pattern_compiled :
  Re.compile jira_issues_pattern
  = Some {| Re.dotall := false; Re.body := jira_issues_regex |}.
Proof. vm_compute. reflexivity. Qed.

(* ------------------------------------------------------------------ *)
(** ** Matches, expression by expression *)
(* ------------------------------------------------------------------ *)

Section MatchShapes.

Import Re.

Variable fl : bool.

Lemma match_empty pos a rest : Match fl Empty pos a rest <-> a = "".
Proof.
  split; [intros M; now inversion M | intros ->; constructor].
Qed.

Lemma match_lit c pos a rest :
  Match fl (Lit c) pos a rest <-> a = String c "".
Proof.
  split; [intros M; now inversion M | intros ->; constructor].
Qed.

Lemma match_any pos a rest :
  Match fl Any pos a rest
  <-> exists c, a = String c "" /\ fl || negb (Ascii.eqb c LF) = true.
Proof.
  split.
  - intros M. inversion M; subst. now eexists.
  - intros (c & -> & H). now constructor.
Qed.

Lemma match_class neg k pos a rest :
  Match fl (Class neg k) pos a rest
  <-> exists c, a = String c "" /\ xorb neg (in_category k c) = true.
Proof.
  split.
  - intros M. inversion M; subst. now eexists.
  - intros (c & -> & H). now constructor.
Qed.

Lemma match_charset neg items pos a rest :
  Match fl (CharSet neg items) pos a rest
  <-> exists c,
      a = String c "" /\ xorb neg (existsb (item_has c) items) = true.
Proof.
  split.
  - intros M. inversion M; subst. now eexists.
  - intros (c & -> & H). now constructor.
Qed.

Lemma match_group capture r pos a rest :
  Match fl (Group capture r) pos a rest <-> Match fl r pos a rest.
Proof.
  split; [intros M; now inversion M | intros M; now constructor].
Qed.

Lemma match_alt r1 r2 pos a rest :
  Match fl (Alt r1 r2) pos a rest
  <-> Match fl r1 pos a rest \/ Match fl r2 pos a rest.
Proof.
  split.
  - intros M. inversion M; subst; auto.
  - intros [M|M]; [now apply MAltL | now apply MAltR].
Qed.

Lemma match_seq r1 r2 pos s rest :
  Match fl (Seq r1 r2) pos s rest
  <-> exists a b,
      s = a ++ b /\ Match fl r1 pos a (b ++ rest)
      /\ Match fl r2 (pos + String.length a) b rest.
Proof.
  split.
  - intros M. inversion M; subst. eauto.
  - intros (a & b & -> & M1 & M2). now constructor.
Qed.

Lemma match_eol pos a rest :
  Match fl Eol pos a rest <-> a = "" /\ (rest = "" \/ rest = String LF "").
Proof.
  split.
  - intros M. inversion M; subst. auto.
  - intros [-> H]. now constructor.
Qed.

(** An optional part is absent or present once. *)
Lemma match_optional r pos a rest :
  Match fl (Repeat 0 (Some 1) r) pos a rest
  <-> a = "" \/ Match fl r pos a rest.
Proof.
  split.
  - intros M.
    inversion M as [| | | | | | | | | |? ? ? n ? ? ? Hlo Hhi I|]; subst.
    specialize (Hhi 1 eq_refl).
    inversion I as [|? n' ? a1 a2 ? M1 I']; subst; [now left | right].
    assert (n' = 0) as -> by lia. inversion I'; subst.
    now rewrite append_nil_r.
  - intros [->|M].
    + apply MRepeat with (n := 0); [lia | intros ? [= <-]; lia | constructor].
    + apply MRepeat with (n := 1); [lia | intros ? [= <-]; lia|].
      rewrite <- (append_nil_r a). constructor; [exact M | constructor].
Qed.

(** Any repetition allows zero iterations when its lower bound is zero. *)
Lemma match_repeat_none hi r pos rest :
  Match fl (Repeat 0 hi r) pos "" rest.
Proof.
  apply MRepeat with (n := 0); [lia | intros; lia | constructor].
Qed.

Lemma match_literal (s : string) :
  forall pos a rest, Match fl (literal s) pos a rest <-> a = s.
Proof.
  induction s as [|c s IH]; intros pos a rest; cbn [literal].
  - apply match_empty.
  - destruct s as [|d s]; [apply match_lit|].
    rewrite match_seq. split.
    + intros (x & y & -> & Mx & My). apply match_lit in Mx as ->.
      apply IH in My as ->. reflexivity.
    + intros ->. exists (String c ""), (String d s).
      split; [reflexivity|]. split; [now apply match_lit | now apply IH].
Qed.

Lemma match_one_of (l : list string) :
  l <> [] ->
  forall pos a rest, Match fl (one_of l) pos a rest <-> In a l.
Proof.
  induction l as [|x l IH]; [congruence|]. intros _ pos a rest.
  cbn [one_of]. destruct l as [|y l].
  - rewrite match_literal. cbn [In]. intuition congruence.
  - rewrite match_alt, match_literal, IH by discriminate.
    cbn [In]. intuition congruence.
Qed.

End MatchShapes.

(* ------------------------------------------------------------------ *)
(** ** Composed messages and the grammar *)
(* ------------------------------------------------------------------ *)

Section Grammar.

Import PyStr Re.

Lemma all_chars_impl (p q : ascii -> bool) (s : string) :
  (forall c, p c = true -> q c = true) ->
  all_chars p s = true -> all_chars q s = true.
Proof.
  intros Hpq. induction s as [|c s IH]; cbn [all_chars]; [trivial|].
  intros H. apply andb_prop in H as [Hc Hs]. now rewrite (Hpq c Hc), IH.
Qed.

Lemma all_chars_trivial (s : string) : all_chars (fun _ => true) s = true.
Proof. induction s; cbn [all_chars]; auto. Qed.

Lemma each_any pos a rest :
  Match true Any pos a rest
  <-> exists c, a = String c "" /\ (fun _ : ascii => true) c = true.
Proof.
  rewrite match_any. split; intros (c & -> & _); now exists c.
Qed.

Lemma each_line_char fl pos a rest :
  Match fl (CharSet true [SChar LF; SChar CR]) pos a rest
  <-> exists c, a = String c "" /\ line_char c = true.
Proof.
  rewrite match_charset. unfold line_char. cbn [existsb item_has xorb].
  split; intros (c & -> & H); exists c; split; trivial;
    now rewrite orb_false_r in *.
Qed.

Lemma each_non_space fl pos a rest :
  Match fl (Class true Space) pos a rest
  <-> exists c, a = String c "" /\ negb (isspace c) = true.
Proof. apply match_class. Qed.

(** What follows the colon: a text without line breaks, then nothing or a
    blank line and anything at all. *)
Lemma match_schema_tail (tail sections : string) :
  single_line tail = true ->
  sections = "" \/ (exists x, sections = nl ++ nl ++ x) ->
  forall pos rest,
    rest = "" \/ rest = nl ->
    Match true schema_tail_regex pos (tail ++ sections) rest.
Proof.
  intros Ht Hs pos rest Hr. unfold schema_tail_regex.
  apply match_seq. exists "", (tail ++ sections).
  split; [reflexivity|]. split; [apply match_optional; now left|].
  apply match_seq. exists "", (tail ++ sections).
  split; [reflexivity|]. split; [apply match_repeat_none|].
  apply match_seq. exists tail, sections.
  split; [reflexivity|]. split.
  { apply match_optional. destruct tail as [|c tail]; [now left | right].
    apply match_group, (repeat_chars _ _ _ (each_line_char true)).
    split; [cbn [String.length]; lia | exact Ht]. }
  apply match_seq. exists sections, "".
  split; [now rewrite append_nil_r|]. split.
  { apply match_optional. destruct Hs as [->|(x & ->)]; [now left | right].
    apply match_group, match_seq. exists nl, (nl ++ x).
    split; [reflexivity|]. split; [now apply match_lit|].
    apply match_seq. exists nl, x.
    split; [reflexivity|]. split; [now apply match_lit|].
    apply (repeat_chars _ _ _ each_any).
    split; [lia | apply all_chars_trivial]. }
  apply match_seq. exists "", "".
  split; [reflexivity|]. split; [apply match_repeat_none|].
  apply match_eol. split; [reflexivity | exact Hr].
Qed.

(** The whole grammar: a change type, a scope without whitespace in
    parentheses or none, an exclamation mark or none, a colon and a space,
    and a tail as above. *)
Lemma match_schema (t sc bang tail sections : string) :
  In t change_types ->
  sc = "" \/ (exists w, w <> "" /\ no_space w = true /\ sc = "(" ++ w ++ ")") ->
  bang = "" \/ bang = "!" ->
  single_line tail = true ->
  sections = "" \/ (exists x, sections = nl ++ nl ++ x) ->
  forall rest,
    rest = "" \/ rest = nl ->
    Match true schema_regex 0 (t ++ sc ++ bang ++ ": " ++ tail ++ sections)
      rest.
Proof.
  intros Ht Hsc Hb Htail Hs rest Hr. unfold schema_regex.
  apply match_seq. eexists t, _. split; [reflexivity|]. split.
  { apply match_group, match_one_of; [discriminate | exact Ht]. }
  apply match_seq. eexists sc, _. split; [reflexivity|]. split.
  { apply match_optional. destruct Hsc as [->|(w & Hw & Nw & ->)];
      [now left | right].
    apply match_group, match_seq. exists "(", (w ++ ")").
    split; [reflexivity|]. split; [now apply match_lit|].
    apply match_seq. exists w, ")".
    split; [reflexivity|]. split; [|now apply match_lit].
    apply (repeat_chars _ _ _ (each_non_space true)).
    split; [|exact Nw]. destruct w; [congruence | cbn; lia]. }
  apply match_seq. eexists bang, _. split; [reflexivity|]. split.
  { apply match_optional. destruct Hb as [->| ->]; [now left | right].
    now apply match_lit. }
  apply match_seq. eexists ":", _. split; [reflexivity|].
  split; [now apply match_lit|].
  apply match_seq. eexists " ", _. split; [reflexivity|].
  split; [now apply match_lit|].
  now apply match_schema_tail.
Qed.

End Grammar.

(* ------------------------------------------------------------------ *)
(** ** More on the filters *)
(* ------------------------------------------------------------------ *)

Section FilterFacts.

Import PyStr exceptions.

Lemma join_all_chars (p : ascii -> bool) (sep : string) (toks : list string) :
  all_chars p sep = true ->
  forallb (all_chars p) toks = true ->
  all_chars p (join sep toks) = true.
Proof.
  intros Hsep. induction toks as [|t toks IH]; [reflexivity|].
  cbn [forallb]. intros H. apply andb_prop in H as [Ht Htoks].
  destruct toks as [|u toks]; [exact Ht|].
  change (join sep (t :: u :: toks)) with (t ++ sep ++ join sep (u :: toks)).
  now rewrite !all_chars_append, Ht, Hsep, IH.
Qed.

Lemma forallb_impl {A : Type} (p q : A -> bool) (l : list A) :
  (forall x, p x = true -> q x = true) ->
  forallb p l = true -> forallb q l = true.
Proof.
  intros Hpq H. apply forallb_forall. intros x Hx.
  apply Hpq. now apply (proj1 (forallb_forall p l) H).
Qed.

Lemma split_no_space (s : string) : forallb no_space (split s) = true.
Proof.
  apply (forallb_impl token); [|apply split_tokens].
  intros x H. now apply andb_prop in H.
Qed.

Lemma join_first_truthy (sep p : string) (ps : list string) :
  truthy p = true -> truthy (join sep (p :: ps)) = true.
Proof.
  intros Hp. destruct ps; [exact Hp|].
  cbn [join]. now apply truthy_append_l.
Qed.

Lemma split_from_nonempty (s : string) :
  forall cur, truthy cur = true -> split_from cur s <> [].
Proof.
  induction s as [|c s IH]; intros cur Hc; cbn [split_from].
  - unfold flush. rewrite Hc. discriminate.
  - destruct (isspace c).
    + unfold flush. rewrite Hc. discriminate.
    + apply IH. destruct cur; [discriminate | reflexivity].
Qed.

Lemma split_nil (s : string) : split s = [] <-> all_space s = true.
Proof.
  split; [|apply split_all_space].
  unfold split, all_space. induction s as [|c s IH]; [reflexivity|].
  cbn [split_from all_chars]. destruct (isspace c); [exact IH|].
  intros H. now apply split_from_nonempty in H.
Qed.

Lemma split_token (t : string) : token t = true -> split t = [t].
Proof.
  intros H. apply (split_join [t]). cbn [forallb]. now rewrite H.
Qed.

Lemma join_tokens_nil (sep : string) (toks : list string) :
  forallb token toks = true -> join sep toks = "" -> toks = [].
Proof.
  destruct toks as [|t toks]; [reflexivity|]. cbn [forallb].
  intros H E. apply andb_prop in H as [H _]. apply andb_prop in H as [H _].
  apply (join_first_truthy sep t toks) in H. rewrite E in H. discriminate.
Qed.

Lemma parse_scope_no_space (text : string) :
  no_space (_parse_scope text) = true.
Proof.
  unfold _parse_scope.
  apply join_all_chars; [reflexivity | apply split_no_space].
Qed.

(** X8: the result of the scope filter holds no whitespace, is empty
    exactly for a blank input, and is left alone by a second pass. *)
Theorem parse_scope_spec (text : string) :
  no_space (_parse_scope text) = true
  /\ (_parse_scope text = "" <-> all_space text = true)
  /\ _parse_scope (_parse_scope text) = _parse_scope text.
Proof.
  pose proof (parse_scope_no_space text) as N.
  unfold _parse_scope in *. rewrite split_strip in *.
  split; [exact N|]. split.
  - split.
    + intros E. apply split_nil.
      now apply (join_tokens_nil "-"); [apply split_tokens|].
    + intros H. apply split_nil in H. now rewrite H.
  - rewrite split_strip.
    destruct (split text) as [|t toks] eqn:E; [reflexivity|].
    rewrite split_token; [reflexivity|].
    unfold token. rewrite N, andb_true_r.
    apply join_first_truthy.
    pose proof (split_tokens text) as T. rewrite E in T. cbn [forallb] in T.
    apply andb_prop in T as [T _]. now apply andb_prop in T.
Qed.

Lemma parse_subject_cleaned (text s : string) :
  _parse_subject text = Return s ->
  s = strip (strip_chars "." text) /\ s <> "".
Proof.
  unfold _parse_subject. rewrite required_validator_eq.
  destruct (String.eqb_spec (strip (strip_chars "." text)) "") as [E|E];
    [discriminate|].
  intros [= <-]. now split.
Qed.

Lemma parse_subject_inside (text s : string) :
  _parse_subject text = Return s ->
  exists front back, text = front ++ s ++ back.
Proof.
  intros H. apply parse_subject_cleaned in H as [-> _].
  unfold strip, strip_chars.
  destruct (strip_by_spec (fun c => mem c ".") text)
    as (p1 & s1 & E1 & _).
  destruct (strip_by_spec isspace (strip_by (fun c => mem c ".") text))
    as (p2 & s2 & E2 & _).
  exists (p1 ++ p2), (s2 ++ s1).
  rewrite E1 at 1. rewrite E2 at 1. now rewrite !append_assoc.
Qed.

(** X9: the subject filter only removes characters from the two ends:
    what it returns is a non-empty part of the input that neither starts
    nor ends with whitespace. *)
Theorem parse_subject_returns (text s : string) :
  _parse_subject text = Return s ->
  s <> ""
  /\ (exists front back, text = front ++ s ++ back)
  /\ (forall c rest, s = String c rest -> isspace c = false)
  /\ (forall rest c, s = rest ++ String c "" -> isspace c = false).
Proof.
  intros H. split; [now apply parse_subject_cleaned in H|].
  split; [now apply parse_subject_inside in H|].
  apply parse_subject_cleaned in H as [-> _]. unfold strip.
  destruct (strip_by_spec isspace (strip_chars "." text))
    as (_ & _ & _ & _ & _ & F & L).
  split; intros; eauto.
Qed.

Lemma keys_checked (toks : list string) :
  forallb token toks = true ->
  forallb (Re.re_match jira_issue_key) toks = true <-> Forall key_shape toks.
Proof.
  intros T. rewrite forallb_forall, Forall_forall.
  rewrite forallb_forall in T.
  split; intros H tok I.
  - apply (proj1 (token_issue_key tok (T tok I))). now apply H.
  - apply (proj2 (token_issue_key tok (T tok I))). exact (H tok I).
Qed.

(** X10: the jira-issues filter accepts an input exactly when each of its
    tokens is two or more capital letters, a hyphen, and one or more
    digits. *)
Theorem parse_jira_issues_shape (text : string) :
  _parse_jira_issues text = Return (join " " (split text))
  <-> Forall key_shape (split text).
Proof.
  rewrite parse_jira_issues_eq.
  rewrite <- (keys_checked _ (split_tokens text)).
  destruct (forallb _ _); split; intros; congruence.
Qed.

(** X11: what the jira-issues filter returns splits into the tokens of the
    input, and the filter returns it unchanged when given it again. *)
Theorem parse_jira_issues_idempotent (text issues : string) :
  _parse_jira_issues text = Return issues ->
  split issues = split text
  /\ _parse_jira_issues issues = Return issues.
Proof.
  rewrite parse_jira_issues_eq.
  destruct (forallb _ (split text)) eqn:F; [|discriminate].
  intros [= <-].
  assert (E : split (join " " (split text)) = split text).
  { apply split_join, split_tokens. }
  split; [exact E|]. now rewrite parse_jira_issues_eq, E, F.
Qed.

End FilterFacts.

(* ------------------------------------------------------------------ *)
(** ** Every composed message passes the grammar *)
(* ------------------------------------------------------------------ *)

Section MessageGrammar.

Import PyStr.

Lemma choice_values_are_types (v : string) :
  In v (map choice_value prefix_choices) -> In v change_types.
Proof.
  cbn [map prefix_choices choice_value In]. intros H.
  repeat (destruct H as [<-|H];
          [unfold change_types; cbn [In];
           repeat ((left; reflexivity) || right)|]).
  contradiction.
Qed.

Variable self : ConventionalCommitsJiraOptionalCz.
Variable answers : ConventionalCommitsAnswers.

Lemma message_parts :
  message self answers
  = prefix answers ++ formatted_scope answers
    ++ (if exclamation self answers then "!" else "")
    ++ ": " ++ title_tail answers ++ sections answers.
Proof.
  unfold message, title, title_head, title_tail, sections.
  destruct (exclamation self answers), (truthy (jira_issues answers));
    now rewrite ?append_assoc.
Qed.

Lemma sections_start :
  sections answers = "" \/ exists x, sections answers = nl ++ nl ++ x.
Proof.
  unfold sections.
  destruct (sections_shape answers) as (B & J & F).
  destruct B as [->|(b & _ & ->)];
    [|right; eexists; now rewrite !append_assoc].
  destruct J as [->|(j & _ & ->)];
    [|right; eexists; now rewrite !append_assoc].
  destruct F as [->|(f & _ & ->)]; [now left | right; now eexists].
Qed.

Lemma scope_part :
  no_space (scope answers) = true ->
  formatted_scope answers = ""
  \/ exists w, w <> "" /\ no_space w = true
               /\ formatted_scope answers = "(" ++ w ++ ")".
Proof.
  intros N. unfold formatted_scope.
  destruct (truthy (scope answers)) eqn:T; [right | now left].
  exists (scope answers). now rewrite <- truthy_true.
Qed.

Lemma tail_single_line :
  single_line (jira_issues answers) = true ->
  single_line (subject answers) = true ->
  single_line (title_tail answers) = true.
Proof.
  intros I S. unfold title_tail, single_line in *.
  destruct (truthy (jira_issues answers)); [|exact S].
  now rewrite !all_chars_append, I, S.
Qed.

Lemma message_in_grammar (rest : string) :
  In (prefix answers) change_types ->
  no_space (scope answers) = true ->
  single_line (jira_issues answers) = true ->
  single_line (subject answers) = true ->
  rest = "" \/ rest = nl ->
  Re.Match true schema_regex 0 (message self answers) rest.
Proof.
  intros P N I S R. rewrite message_parts.
  apply match_schema; auto using scope_part, tail_single_line, sections_start.
  destruct (exclamation self answers); auto.
Qed.

Lemma in_grammar_accepted (s rest : string) :
  Re.Match true schema_regex 0 s rest ->
  Re.re_match schema_pattern (s ++ rest) = true.
Proof.
  intros M. unfold Re.re_match. rewrite schema_pattern_compiled.
  apply matches_spec; [reflexivity|]. now exists s, rest.
Qed.

(** X1: when the prefix is one of the change types, the scope holds no
    whitespace, and neither the issue keys nor the subject holds a line
    break, the composed message is accepted by [schema_pattern], with or
    without a line break after it, whatever the body, the metadata, the
    footer and the settings are. *)
Theorem message_matches_schema :
  In (prefix answers) change_types ->
  no_space (scope answers) = true ->
  single_line (jira_issues answers) = true ->
  single_line (subject answers) = true ->
  Re.re_match schema_pattern (message self answers) = true
  /\ Re.re_match schema_pattern (message self answers ++ nl) = true.
Proof.
  intros P N I S. split.
  - rewrite <- (append_nil_r (message self answers)).
    apply in_grammar_accepted, message_in_grammar; auto.
  - apply in_grammar_accepted, message_in_grammar; auto.
Qed.

End MessageGrammar.

Section FilteredAnswers.

Import PyStr.

Lemma single_line_part (front s back : string) :
  single_line (front ++ s ++ back) = true -> single_line s = true.
Proof.
  unfold single_line. rewrite !all_chars_append.
  intros H. apply andb_prop in H as [_ H]. now apply andb_prop in H.
Qed.

Lemma no_space_single_line (s : string) :
  no_space s = true -> single_line s = true.
Proof.
  apply all_chars_impl. intros c H. unfold line_char.
  destruct (Ascii.eqb_spec c Re.LF) as [->|_]; [discriminate|].
  destruct (Ascii.eqb_spec c Re.CR) as [->|_]; [discriminate|].
  reflexivity.
Qed.

(** X2: answers that went through the prompts' filters give a message that
    [schema_pattern] accepts: the prefix is one of the choices, the scope
    and the issue keys are what their filters returned, and the subject is
    what its filter returned for an input without line breaks. *)
Theorem filtered_message_matches_schema
    (self : ConventionalCommitsJiraOptionalCz)
    (answers : ConventionalCommitsAnswers)
    (raw_issues raw_scope raw_subject : string) :
  In (prefix answers) (map choice_value prefix_choices) ->
  _parse_jira_issues raw_issues = Return (jira_issues answers) ->
  scope answers = _parse_scope raw_scope ->
  _parse_subject raw_subject = Return (subject answers) ->
  single_line raw_subject = true ->
  Re.re_match schema_pattern (message self answers) = true.
Proof.
  intros P I Sc Su L. rewrite <- (append_nil_r (message self answers)).
  apply in_grammar_accepted, message_in_grammar; [| | | |now left].
  - now apply choice_values_are_types.
  - rewrite Sc. apply parse_scope_no_space.
  - rewrite parse_jira_issues_eq in I.
    destruct (forallb _ _); [|discriminate]. injection I as <-.
    apply join_all_chars; [reflexivity|].
    apply (forallb_impl no_space);
      [apply no_space_single_line | apply split_no_space].
  - apply parse_subject_inside in Su as (front & back & E).
    rewrite E in L. now apply single_line_part in L.
Qed.

End FilteredAnswers.

(* ------------------------------------------------------------------ *)
(** ** What the grammar asks of a message *)
(* ------------------------------------------------------------------ *)

Section GrammarHeader.

Import PyStr.

(** X3: a text that [schema_pattern] accepts starts with one of the change
    types, then a scope in parentheses (non-empty, without whitespace) or
    nothing, then an exclamation mark or nothing, then a colon and a
    space. *)
Theorem schema_pattern_header (s : string) :
  Re.re_match schema_pattern s = true ->
  exists t sc bang rest,
    s = t ++ sc ++ bang ++ ": " ++ rest
    /\ In t change_types
    /\ (sc = ""
        \/ exists w, w <> "" /\ no_space w = true /\ sc = "(" ++ w ++ ")")
    /\ (bang = "" \/ bang = "!").
Proof.
  unfold Re.re_match. rewrite schema_pattern_compiled. intros H.
  apply matches_spec in H as (a & rest & -> & M); [|reflexivity].
  cbn [Re.dotall Re.body] in M. unfold schema_regex in M.
  apply match_seq in M as (t & a1 & -> & Mt & M).
  apply match_group in Mt. apply match_one_of in Mt; [|discriminate].
  apply match_seq in M as (sc & a2 & -> & Msc & M).
  apply match_optional in Msc.
  apply match_seq in M as (bang & a3 & -> & Mb & M).
  apply match_optional in Mb.
  apply match_seq in M as (colon & a4 & -> & Mc & M).
  apply match_lit in Mc as ->.
  apply match_seq in M as (sp & tl & -> & Msp & _).
  apply match_lit in Msp as ->.
  exists t, sc, bang, (tl ++ rest).
  split; [now rewrite !append_assoc|]. split; [exact Mt|]. split.
  - destruct Msc as [->|Msc]; [now left | right].
    apply match_group in Msc.
    apply match_seq in Msc as (l & a5 & -> & Ml & Msc).
    apply match_lit in Ml as ->.
    apply match_seq in Msc as (w & r & -> & Mw & Mr).
    apply match_lit in Mr as ->.
    apply (repeat_chars _ _ _ (each_non_space true)) in Mw as [Lw Nw].
    exists w. repeat split; [|exact Nw].
    destruct w; [cbn in Lw; lia | discriminate].
  - destruct Mb as [->|Mb]; [now left | right]. now apply match_lit in Mb.
Qed.

End GrammarHeader.

(* ------------------------------------------------------------------ *)
(** ** The issue keys of the grammar and of the filter *)
(* ------------------------------------------------------------------ *)

Section IssueKeys.

Import PyStr Re.

Lemma capital_not_space (c : ascii) :
  upper c = true -> negb (isspace c) = true.
Proof.
  destruct c as [[|] [|] [|] [|] [|] [|] [|] [|]]; vm_compute;
    intros H; first [reflexivity | discriminate H].
Qed.

Lemma decimal_not_space (c : ascii) :
  isdecimal c = true -> negb (isspace c) = true.
Proof.
  destruct c as [[|] [|] [|] [|] [|] [|] [|] [|]]; vm_compute;
    intros H; first [reflexivity | discriminate H].
Qed.

Lemma key_shape_token (k : string) : key_shape k -> token k = true.
Proof.
  intros (letters & digits & -> & Ll & Al & Ld & Ad).
  unfold token, no_space. rewrite !all_chars_append.
  rewrite (all_chars_impl _ _ _ capital_not_space Al).
  rewrite (all_chars_impl _ _ _ decimal_not_space Ad).
  destruct letters; [cbn in Ll; lia | reflexivity].
Qed.

Variable fl : bool.

Lemma match_key pos a rest : Match fl key_regex pos a rest <-> key_shape a.
Proof.
  unfold key_regex, capitals_regex, digits_regex, key_shape. split.
  - intros M. apply match_seq in M as (letters & a1 & -> & Ml & M).
    apply match_seq in M as (h & digits & -> & Mh & Md).
    apply match_lit in Mh as ->.
    apply (repeat_chars _ _ _ (match_upper fl)) in Ml as [Ll Al].
    apply (repeat_chars _ _ _ (match_digit fl)) in Md as [Ld Ad].
    exists letters, digits. auto.
  - intros (letters & digits & -> & Ll & Al & Ld & Ad).
    apply match_seq. exists letters, ("-" ++ digits).
    split; [reflexivity|]. split.
    + now apply (repeat_chars _ _ _ (match_upper fl)).
    + apply match_seq. exists "-", digits.
      split; [reflexivity|]. split; [now apply match_lit|].
      now apply (repeat_chars _ _ _ (match_digit fl)).
Qed.

(** Repetition of an expression whose matches depend on the text only. *)
Section Pieces.

Variable r : regex.
Variable P : string -> Prop.
Hypothesis r_matches : forall pos a rest, Match fl r pos a rest <-> P a.

Lemma iter_pieces (n : nat) :
  forall pos a rest,
    Iter fl r n pos a rest
    <-> exists pieces,
        List.length pieces = n /\ Forall P pieces
        /\ a = fold_right append "" pieces.
Proof.
  induction n as [|n IH]; intros pos a rest; split.
  - intros I. inversion I; subst. now exists [].
  - intros ([|? ?] & L & _ & ->); [constructor | discriminate].
  - intros I. inversion I as [|? ? ? a1 a2 ? M I']; subst.
    apply r_matches in M. apply IH in I' as (pieces & L & F & ->).
    exists (a1 :: pieces). cbn [List.length fold_right].
    now rewrite L; auto.
  - intros ([|x pieces] & L & F & ->); [discriminate|].
    inversion F; subst. injection L as L. cbn [fold_right].
    constructor; [now apply r_matches|]. apply IH. now exists pieces.
Qed.

Lemma star_pieces pos a rest :
  Match fl (Repeat 0 None r) pos a rest
  <-> exists pieces, Forall P pieces /\ a = fold_right append "" pieces.
Proof.
  split.
  - intros M.
    inversion M as [| | | | | | | | | |? ? ? n ? ? ? Hlo Hhi I|]; subst.
    apply iter_pieces in I as (pieces & _ & F & ->). now exists pieces.
  - intros (pieces & F & ->).
    apply MRepeat with (n := List.length pieces);
      [lia | discriminate | apply iter_pieces; now exists pieces].
Qed.

End Pieces.

Lemma match_spaced_key pos a rest :
  Match fl (Group true (Seq (Lit " ") key_regex)) pos a rest
  <-> exists k, key_shape k /\ a = " " ++ k.
Proof.
  rewrite match_group, match_seq. split.
  - intros (x & k & -> & Mx & Mk). apply match_lit in Mx as ->.
    apply match_key in Mk. now exists k.
  - intros (k & Hk & ->). exists " ", k.
    split; [reflexivity|]. split; [now apply match_lit | now apply match_key].
Qed.

Lemma join_pieces (k : string) (ks : list string) :
  join " " (k :: ks) = k ++ fold_right append "" (map (append " ") ks).
Proof.
  revert k. induction ks as [|u ks IH]; intros k.
  - cbn. now rewrite append_nil_r.
  - change (join " " (k :: u :: ks)) with (k ++ " " ++ join " " (u :: ks)).
    rewrite IH. cbn [map fold_right]. now rewrite !append_assoc.
Qed.

Lemma spaced_pieces (pieces : list string) :
  Forall (fun a => exists k, key_shape k /\ a = " " ++ k) pieces ->
  exists ks, Forall key_shape ks /\ pieces = map (append " ") ks.
Proof.
  induction 1 as [|a pieces (k & Hk & ->) _ (ks & F & ->)].
  - now exists [].
  - exists (k :: ks). split; [now constructor | reflexivity].
Qed.

Lemma match_keys pos a rest :
  Match fl keys_regex pos a rest
  <-> exists k ks,
      key_shape k /\ Forall key_shape ks /\ a = join " " (k :: ks).
Proof.
  unfold keys_regex, capitals_regex, digits_regex. split.
  - intros M. apply match_seq in M as (letters & a1 & -> & Ml & M).
    apply match_seq in M as (h & a2 & -> & Mh & M).
    apply match_seq in M as (digits & more & -> & Md & M).
    apply match_lit in Mh as ->.
    apply (repeat_chars _ _ _ (match_upper fl)) in Ml as [Ll Al].
    apply (repeat_chars _ _ _ (match_digit fl)) in Md as [Ld Ad].
    apply (star_pieces _ _ match_spaced_key) in M as (pieces & F & ->).
    apply spaced_pieces in F as (ks & F & ->).
    exists (letters ++ "-" ++ digits), ks. split; [|split; [exact F|]].
    + exists letters, digits. auto.
    + now rewrite join_pieces, !append_assoc.
  - intros (k & ks & (letters & digits & -> & Ll & Al & Ld & Ad) & F & ->).
    rewrite join_pieces, !append_assoc.
    apply match_seq. eexists letters, _. split; [reflexivity|].
    split; [now apply (repeat_chars _ _ _ (match_upper fl))|].
    apply match_seq. eexists "-", _. split; [reflexivity|].
    split; [now apply match_lit|].
    apply match_seq. eexists digits, _. split; [reflexivity|].
    split; [now apply (repeat_chars _ _ _ (match_digit fl))|].
    apply (star_pieces _ _ match_spaced_key).
    exists (map (append " ") ks). split; [|reflexivity].
    apply Forall_forall. intros x Hx. apply in_map_iff in Hx as (u & <- & Hu).
    exists u. split; [|reflexivity].
    now apply (proj1 (Forall_forall _ _) F).
Qed.

Lemma match_jira_issues pos a rest :
  Match fl jira_issues_regex pos a rest
  <-> exists toks, Forall key_shape toks /\ a = join " " toks.
Proof.
  unfold jira_issues_regex. rewrite match_optional, match_group, match_keys.
  split.
  - intros [->|(k & ks & Hk & F & ->)]; [now exists []|].
    exists (k :: ks). split; [now constructor | reflexivity].
  - intros ([|k ks] & F & ->); [now left | right].
    inversion F; subst. now exists k, ks.
Qed.

End IssueKeys.

Section IssuesGrammar.

Import PyStr.

(** X4: the texts that [jira_issues_pattern] matches in full are exactly
    the texts the jira-issues filter accepts and returns as they are. *)
Theorem jira_issues_pattern_fixed_points (s : string) :
  (exists p, Re.compile jira_issues_pattern = Some p
             /\ Re.fullmatch p s = true)
  <-> _parse_jira_issues s = Return s.
Proof.
  rewrite jira_issues_pattern_compiled. split.
  - intros (p & [= <-] & F).
    apply fullmatch_spec in F; [|reflexivity]. cbn [Re.dotall Re.body] in F.
    apply match_jira_issues in F as (toks & F & ->).
    assert (T : forallb token toks = true).
    { apply forallb_forall. intros k Hk. apply key_shape_token.
      now apply (proj1 (Forall_forall _ _) F). }
    pose proof (split_join toks T) as E.
    rewrite parse_jira_issues_eq, E.
    now rewrite (proj2 (keys_checked toks T) F).
  - intros H. eexists. split; [reflexivity|].
    apply fullmatch_spec; [reflexivity|]. cbn [Re.dotall Re.body].
    apply match_jira_issues. rewrite parse_jira_issues_eq in H.
    destruct (forallb _ _) eqn:F; [|discriminate]. injection H as H.
    exists (split s). split; [|now symmetry].
    now apply (keys_checked _ (split_tokens s)).
Qed.

End IssuesGrammar.

(* ------------------------------------------------------------------ *)
(** ** The metadata filters and the settings *)
(* ------------------------------------------------------------------ *)

Section MetadataFilters.

Import PyStr.

Lemma replace_length (old new : ascii) (s : string) :
  String.length (replace old new s) = String.length s.
Proof. induction s as [|c s IH]; cbn; [reflexivity | now rewrite IH]. Qed.

Lemma replace_removes (old new : ascii) (s : string) :
  new <> old ->
  all_chars (fun c => negb (Ascii.eqb c old)) (replace old new s) = true.
Proof.
  intros N. induction s as [|c s IH]; [reflexivity|].
  cbn [replace all_chars]. rewrite IH, andb_true_r.
  destruct (Ascii.eqb_spec c old) as [->|Hc].
  - now apply negb_true_iff, Ascii.eqb_neq.
  - now apply negb_true_iff, Ascii.eqb_neq.
Qed.

Lemma lstrip_all (p : ascii -> bool) (s : string) :
  all_chars p s = true -> lstrip_by p s = "".
Proof.
  induction s as [|c s IH]; [reflexivity|]. cbn [all_chars lstrip_by].
  intros H. apply andb_prop in H as [-> H]. now apply IH.
Qed.

Lemma strip_all_space (s : string) : all_space s = true -> strip s = "".
Proof.
  intros H. unfold strip, strip_by. now rewrite (lstrip_all _ _ H).
Qed.

(** X5: the workflow filter returns nothing for an empty input only; for
    any other input the result is ["#"] followed by as many characters as
    the trimmed input has, none of them a space, so an input of whitespace
    alone gives a bare ["#"]. *)
Theorem jira_workflow_filter_spec (x : string) :
  (jira_workflow_filter x = "" <-> x = "")
  /\ all_chars (fun c => negb (Ascii.eqb c " ")) (jira_workflow_filter x)
     = true
  /\ (x <> "" ->
      startswith (jira_workflow_filter x) "#" = true
      /\ String.length (jira_workflow_filter x)
         = S (String.length (strip x)))
  /\ (x <> "" -> all_space x = true -> jira_workflow_filter x = "#").
Proof.
  unfold jira_workflow_filter. destruct x as [|c x]; cbn [truthy].
  - repeat split; congruence.
  - split; [split; discriminate|]. split.
    + change ("#" ++ ?s) with (String "#" s). cbn [all_chars].
      cbn [append all_chars]. now rewrite replace_removes.
    + split.
      * intros _. split; [reflexivity|].
        cbn [append String.length]. now rewrite replace_length.
      * intros _ H. now rewrite (strip_all_space _ H).
Qed.

Lemma metadata_filter_empty (w t c : string) :
  (jira_workflow_filter w = "" <-> w = "")
  /\ (jira_time_filter t = "" <-> t = "")
  /\ (jira_comment_filter c = "" <-> c = "").
Proof.
  unfold jira_workflow_filter, jira_time_filter, jira_comment_filter.
  destruct w, t, c; cbn; repeat split; congruence.
Qed.

Lemma metadata_filter_hash (w t c : string) :
  (jira_workflow_filter w = ""
   \/ exists r, jira_workflow_filter w = String "#" r)
  /\ (jira_time_filter t = "" \/ exists r, jira_time_filter t = String "#" r)
  /\ (jira_comment_filter c = ""
      \/ exists r, jira_comment_filter c = String "#" r).
Proof.
  unfold jira_workflow_filter, jira_time_filter, jira_comment_filter.
  destruct w, t, c; cbn [truthy append]; repeat split; eauto.
Qed.

(** X6: with the three metadata fields filled by their filters, the
    metadata section of the message is absent exactly when all three
    inputs were empty, and otherwise begins with a blank line and a
    ["#"]. *)
Theorem metadata_of_filtered_inputs
    (answers : ConventionalCommitsAnswers) (w t c : string) :
  jira_workflow answers = jira_workflow_filter w ->
  jira_time answers = jira_time_filter t ->
  jira_comment answers = jira_comment_filter c ->
  (formatted_jira answers = "" <-> w = "" /\ t = "" /\ c = "")
  /\ (formatted_jira answers = ""
      \/ startswith (formatted_jira answers) (nl ++ nl ++ "#") = true).
Proof.
  intros Hw Ht Hc. unfold formatted_jira, jira_parts. rewrite Hw, Ht, Hc.
  destruct (metadata_filter_empty w t c) as (Ew & Et & Ec).
  destruct (metadata_filter_hash w t c)
    as ([Fw|(rw & Fw)] & [Ft|(rt & Ft)] & [Fc|(rc & Fc)]);
    rewrite Fw, Ft, Fc in *; cbn [List.filter truthy];
    (split;
     [split;
      [intros E; try discriminate E; intuition
      |intros (A & B & C); apply (proj2 Ew) in A; apply (proj2 Et) in B;
       apply (proj2 Ec) in C; try discriminate; reflexivity]
     |first [left; reflexivity | right; reflexivity]]).
Qed.

End MetadataFilters.

Section SettingsFacts.

(** X7: the message depends on the settings through the flag
    [breaking_change_exclamation_in_title] alone, an absent flag counts as
    false, and without a breaking change the settings play no part. *)
Theorem message_settings
    (self other : ConventionalCommitsJiraOptionalCz)
    (answers : ConventionalCommitsAnswers) :
  (get (breaking_change_exclamation_in_title (settings (config self))) false
   = get (breaking_change_exclamation_in_title (settings (config other)))
       false ->
   message self answers = message other answers)
  /\ (breaking_change_exclamation_in_title (settings (config self)) = None ->
      message self answers = message (cz_with (Some false)) answers)
  /\ (is_breaking_change answers = false ->
      message self answers = message other answers).
Proof.
  unfold message, title, title_head, exclamation. repeat split.
  - now intros ->.
  - now intros ->.
  - now intros ->.
Qed.

End SettingsFacts.

(* ------------------------------------------------------------------ *)
(** ** Periods, whitespace and the subject *)
(* ------------------------------------------------------------------ *)

Section SubjectEdge.

Import PyStr.

Variable p : ascii -> bool.

Lemma lstrip_by_keeps (s : string) :
  (forall c rest, s = String c rest -> p c = false) ->
  lstrip_by p s = s.
Proof.
  destruct s as [|c s]; [reflexivity|]. intros H. cbn [lstrip_by].
  now rewrite (H c s eq_refl).
Qed.

Lemma rstrip_by_all (s : string) :
  all_chars p s = true -> rstrip_by p s = "".
Proof.
  induction s as [|c s IH]; [reflexivity|]. cbn [all_chars rstrip_by].
  intros H. apply andb_prop in H as [Hc H]. now rewrite (IH H), Hc.
Qed.

Lemma rstrip_by_drops (s back : string) :
  all_chars p back = true -> rstrip_by p (s ++ back) = rstrip_by p s.
Proof.
  intros H. induction s as [|c s IH]; cbn [append rstrip_by].
  - now apply rstrip_by_all.
  - now rewrite IH.
Qed.

Lemma rstrip_by_keeps (s : string) :
  (forall rest c, s = rest ++ String c "" -> p c = false) ->
  rstrip_by p s = s.
Proof.
  induction s as [|c s IH]; [reflexivity|]. intros H. cbn [rstrip_by].
  destruct s as [|d s].
  - cbn [rstrip_by]. now rewrite (H "" c eq_refl).
  - rewrite IH; [reflexivity|].
    intros rest e E. apply (H (String c rest) e). cbn [append]. now rewrite E.
Qed.

End SubjectEdge.

Section SubjectPeriod.

Import PyStr.

Lemma last_of_append (s back rest : string) (c : ascii) :
  back <> "" -> s ++ back = rest ++ String c "" ->
  exists rest', back = rest' ++ String c "".
Proof.
  revert rest. induction s as [|d s IH]; intros rest Hb E.
  - now exists rest.
  - destruct rest as [|e rest].
    + cbn [append] in E. injection E as _ E.
      destruct s; [now destruct back | discriminate].
    + cbn [append] in E. injection E as _ E. now apply (IH rest).
Qed.

Lemma all_chars_last (q : ascii -> bool) (s rest : string) (c : ascii) :
  all_chars q s = true -> s = rest ++ String c "" -> q c = true.
Proof.
  intros H ->. rewrite all_chars_append in H.
  apply andb_prop in H as [_ H]. cbn [all_chars] in H.
  now apply andb_prop in H.
Qed.

(** X12: whitespace after the subject shields a final period: when a
    non-empty text [s] does not start with a period or whitespace and does
    not end with whitespace, the subject filter returns [s] itself for [s]
    followed by whitespace, even if [s] ends with a period. *)
Theorem parse_subject_period_before_space (s blanks : string) :
  s <> "" ->
  (forall c rest, s = String c rest -> isspace c = false /\ c <> "."%char) ->
  (forall rest c, s = rest ++ String c "" -> isspace c = false) ->
  all_space blanks = true -> blanks <> "" ->
  _parse_subject (s ++ blanks) = Return s.
Proof.
  intros Hs Hfirst Hlast Hb Hne.
  unfold _parse_subject, strip, strip_chars, strip_by.
  destruct s as [|c s]; [congruence|]. clear Hs.
  destruct (Hfirst c s eq_refl) as [Fs Fp].
  assert (E1 : lstrip_by (fun c => mem c ".") (String c s ++ blanks)
               = String c s ++ blanks).
  { apply lstrip_by_keeps. cbn [append]. intros d rest [= <- _].
    cbn [mem]. rewrite orb_false_r. now apply Ascii.eqb_neq. }
  rewrite E1.
  assert (E2 : rstrip_by (fun c => mem c ".") (String c s ++ blanks)
               = String c s ++ blanks).
  { apply rstrip_by_keeps. intros rest e E.
    apply last_of_append in E as (rest' & E); [|exact Hne].
    pose proof (all_chars_last _ _ _ _ Hb E) as W.
    cbn [mem]. rewrite orb_false_r. apply Ascii.eqb_neq. intros ->.
    discriminate W. }
  rewrite E2.
  assert (E3 : lstrip_by isspace (String c s ++ blanks)
               = String c s ++ blanks).
  { apply lstrip_by_keeps. cbn [append]. now intros d rest [= <- _]. }
  rewrite E3, (rstrip_by_drops _ _ _ Hb), (rstrip_by_keeps _ _ Hlast).
  reflexivity.
Qed.

(** X13: the time and comment filters lose nothing: two inputs with the
    same result are the same input. *)
Theorem metadata_filters_injective (x y : string) :
  (jira_time_filter x = jira_time_filter y -> x = y)
  /\ (jira_comment_filter x = jira_comment_filter y -> x = y).
Proof.
  unfold jira_time_filter, jira_comment_filter.
  destruct x, y; cbn [truthy append]; split; intros H;
    try reflexivity; try discriminate H; injection H as -> ->; reflexivity.
Qed.

End SubjectPeriod.

(* ------------------------------------------------------------------ *)
(** ** Worked inputs *)
(* ------------------------------------------------------------------ *)

Lemma append_last_inj (a b : string) (c d : ascii) :
  a ++ String c "" = b ++ String d "" -> c = d.
Proof.
  revert b. induction a as [|x a IH]; intros [|y b] E; cbn [append] in E.
  - now injection E.
  - injection E as _ E. now destruct b.
  - injection E as _ E. now destruct a.
  - injection E as _ E. now apply (IH b).
Qed.

Lemma feat_breaking_accepted :
  Re.re_match schema_pattern (message (cz_with (Some true)) feat_breaking)
  = true.
Proof.
  apply (message_matches_schema (cz_with (Some true)) feat_breaking);
    try reflexivity.
  unfold change_types. cbn [prefix feat_breaking In].
  repeat ((left; reflexivity) || right).
Defined.

Lemma fix_filtered_accepted :
  Re.re_match schema_pattern (message (cz_with None) fix_filtered) = true.
Proof.
  apply (filtered_message_matches_schema (cz_with None) fix_filtered
           "JRA-123  ABC-45" "  My Class  " "fix a bug.");
    try reflexivity.
  cbn [prefix fix_filtered map prefix_choices choice_value In].
  left. reflexivity.
Defined.

Lemma fix_parser_header :
  exists t sc bang rest,
    "fix(parser)!: handle empty input" = t ++ sc ++ bang ++ ": " ++ rest
    /\ In t change_types
    /\ (sc = ""
        \/ exists w,
             w <> "" /\ PyStr.no_space w = true /\ sc = "(" ++ w ++ ")")
    /\ (bang = "" \/ bang = "!").
Proof.
  apply (schema_pattern_header "fix(parser)!: handle empty input").
  vm_compute. reflexivity.
Defined.

Lemma fix_filtered_metadata :
  PyStr.startswith (formatted_jira fix_filtered) (nl ++ nl ++ "#") = true.
Proof.
  destruct (metadata_of_filtered_inputs fix_filtered "in review" "3h 15m" ""
              eq_refl eq_refl eq_refl) as [_ [E|S]].
  - discriminate E.
  - exact S.
Defined.

Lemma fix_a_bug_subject :
  "fix a bug" <> ""
  /\ exists front back, "fix a bug." = front ++ "fix a bug" ++ back.
Proof.
  destruct (parse_subject_returns "fix a bug." "fix a bug" eq_refl)
    as (N & P & _).
  split; [exact N | exact P].
Defined.

Lemma two_keys_again :
  PyStr.split "JRA-123 ABC-45" = PyStr.split "JRA-123  ABC-45"
  /\ _parse_jira_issues "JRA-123 ABC-45" = Return "JRA-123 ABC-45".
Proof.
  apply (parse_jira_issues_idempotent "JRA-123  ABC-45" "JRA-123 ABC-45").
  vm_compute. reflexivity.
Defined.

Lemma fix_a_bug_period_kept :
  _parse_subject ("fix a bug." ++ " ") = Return "fix a bug.".
Proof.
  apply (parse_subject_period_before_space "fix a bug." " ").
  - discriminate.
  - intros c rest [= <- _]. split; [reflexivity | discriminate].
  - intros rest c E.
    change "fix a bug." with ("fix a bug" ++ String "." "") in E.
    apply append_last_inj in E as <-. reflexivity.
  - reflexivity.
  - discriminate.
Defined.
